(** * api-http-response: response formatting, translation and notification

    A shallow embedding of [src/index.js].  The file holds two revisions of
    the module, one after the other:

    - lines 1-338, embedded as [RevA]: the formatters write their own
      bodies ([{errors: [...]}], [{success, msg}]) and [handleLanguage]
      is called inside the [try] of [translate];
    - lines 339-644, embedded as [RevB]: the formatters go through
      [custom] and [handleLanguage] is called before the [try].

    [slugify], [custom_notify], [error_notification] and
    [log_notification] have the same text in both revisions and are
    embedded once.

    Conventions.  A JavaScript value is a term of [value].  An object has
    its own properties and, behind them, the members it inherits, which
    belong to the [platform] with the built-in functions, their calls and
    the printing of numbers: the theorems hold for every platform and the
    examples run on a sample one.  A function that can throw returns a
    [result].  The locale table [lang] (the file [lang.json]) and
    [process.env] are parameters.  The notifier runs in a [world] that
    records every POST handed to the transport, and an event loop settles
    the POSTs in flight according to a transport oracle. *)

From Stdlib Require Import ZArith NArith String Ascii List Bool Lia.
From stdpp Require Import base gmap strings list pretty.

Set Warnings "-register-all".

Open Scope string_scope.

(* ===================================================================== *)
(** * Part I: the embedding                                               *)
(* ===================================================================== *)

(* --------------------------------------------------------------------- *)
(** ** JavaScript values                                                  *)
(* --------------------------------------------------------------------- *)

Module JS.

(** [VNum n] is the number [n], an integer.  [VObj] is a plain object and
    [VError] an [Error] instance, each with its own properties.  [VBuiltin]
    is a function or an object of the platform (a built-in such as
    [Object] or [Object.prototype.toString], or any other function), known
    by its name: what it answers to a read or to a call is the
    platform's. *)
Inductive value :=
| VUndefined
| VNull
| VBool (b : bool)
| VNum (n : Z)
| VStr (s : string)
| VArr (xs : list value)
| VObj (props : gmap string value)
| VError (props : gmap string value)
| VBuiltin (id : string).

(** The only exception the module can meet is a [TypeError]: a property
    read on [undefined] or [null], a value that cannot be converted to a
    string, an accessor of the platform that throws. *)
Inductive exn := TypeError.

Inductive result (A : Type) :=
| Ok (a : A)
| Throw (e : exn).
Arguments Ok {A} a.
Arguments Throw {A} e.

Definition bind {A B} (r : result A) (k : A -> result B) : result B :=
  match r with
  | Ok a => k a
  | Throw e => Throw e
  end.

(** [x ← r; k] runs [k] on the value of [r] and propagates a throw. *)
Global Instance result_bind : MBind result := fun A B k r => bind r k.
Global Instance result_ret : MRet result := fun A a => Ok a.

(** [try { body } catch (err) { handler }] *)
Definition try_catch {A} (body : result A) (handler : exn -> result A)
  : result A :=
  match body with
  | Ok a => Ok a
  | Throw e => handler e
  end.

Definition raises {A} (r : result A) : Prop :=
  match r with
  | Ok _ => False
  | Throw _ => True
  end.

(** The prototype chains a value of the model can have. *)
Inductive kind := KObject | KError | KArray | KString | KNumber | KBoolean.

(** The JavaScript platform, as far as the module can observe it:
    - [inherited kd k]: what a value of kind [kd] finds under the name [k]
      through its prototype chain when it has no own property [k]
      ([None] when the chain has no such member);
    - [builtin_get id k]: the read [f[k]] on the built-in [id], which an
      accessor can make throw;
    - [builtin_callable id]: whether the built-in is a function;
    - [builtin_call id this]: the call [f.call(this)];
    - [number_text n]: the string of the number [n]. *)
Class platform := {
  inherited : kind -> string -> option value;
  builtin_get : string -> string -> result value;
  builtin_callable : string -> bool;
  builtin_call : string -> value -> result value;
  number_text : Z -> string
}.

(** ToBoolean *)
Definition truthy (v : value) : bool :=
  match v with
  | VUndefined | VNull => false
  | VBool b => b
  | VNum n => negb (n =? 0)%Z
  | VStr s => negb (String.eqb s EmptyString)
  | VArr _ | VObj _ | VError _ | VBuiltin _ => true
  end.

Definition is_primitive (v : value) : bool :=
  match v with
  | VUndefined | VNull | VBool _ | VNum _ | VStr _ => true
  | VArr _ | VObj _ | VError _ | VBuiltin _ => false
  end.

(** The position named by a canonical array index below [len]. *)
Definition index_of (k : string) (len : nat) : option nat :=
  fst <$> list_find (fun i => pretty i = k) (seq 0 len).

Fixpoint string_nth (s : string) (i : nat) : option string :=
  match s, i with
  | EmptyString, _ => None
  | String c _, O => Some (String c EmptyString)
  | String _ s', S i' => string_nth s' i'
  end.

(** The own properties of a string and of an array: the length and the
    indices. *)
Definition string_own (s : string) (k : string) : option value :=
  if String.eqb k "length" then Some (VNum (Z.of_nat (String.length s)))
  else i ← index_of k (String.length s); VStr <$> string_nth s i.

Definition array_own (xs : list value) (k : string) : option value :=
  if String.eqb k "length" then Some (VNum (Z.of_nat (length xs)))
  else i ← index_of k (length xs); xs !! i.

(** A read that finds the own property, else the inherited member, else
    [undefined]. *)
Definition member `{platform} (kd : kind) (own : option value) (k : string)
  : value :=
  match own with
  | Some v => v
  | None => default VUndefined (inherited kd k)
  end.

(** [v[k]]: a property read.  Reading from [undefined] or [null]
    throws. *)
Definition get_prop `{platform} (v : value) (k : string) : result value :=
  match v with
  | VUndefined | VNull => Throw TypeError
  | VBool _ => Ok (member KBoolean None k)
  | VNum _ => Ok (member KNumber None k)
  | VStr s => Ok (member KString (string_own s k) k)
  | VArr xs => Ok (member KArray (array_own xs k) k)
  | VObj props => Ok (member KObject (props !! k) k)
  | VError props => Ok (member KError (props !! k) k)
  | VBuiltin id => builtin_get id k
  end.

(** [v?.k] *)
Definition get_prop_opt `{platform} (v : value) (k : string) : result value :=
  match v with
  | VUndefined | VNull => Ok VUndefined
  | _ => get_prop v k
  end.

(** ToString of a primitive. *)
Definition primitive_text `{platform} (v : value) : string :=
  match v with
  | VUndefined => "undefined"
  | VNull => "null"
  | VBool true => "true"
  | VBool false => "false"
  | VNum n => number_text n
  | VStr s => s
  | VArr _ | VObj _ | VError _ | VBuiltin _ => EmptyString
  end.

(** One step of OrdinaryToPrimitive: the method [name] of [o], when it is
    a function, is called on [o]; its result counts when it is a
    primitive. *)
Definition try_method `{platform} (o : value) (name : string)
  : result (option value) :=
  m ← get_prop o name;
  match m with
  | VBuiltin id =>
      if builtin_callable id
      then r ← builtin_call id o; Ok (if is_primitive r then Some r else None)
      else Ok None
  | _ => Ok None
  end.

(** ToPrimitive with hint string: [toString], then [valueOf], then a
    [TypeError]. *)
Definition to_primitive `{platform} (v : value) : result value :=
  if is_primitive v then Ok v
  else
    r ← try_method v "toString";
    match r with
    | Some p => Ok p
    | None =>
        r' ← try_method v "valueOf";
        match r' with
        | Some p => Ok p
        | None => Throw TypeError
        end
    end.

(** ToString, as applied by [String(v)], by a template literal and by a
    computed property key. *)
Definition to_string `{platform} (v : value) : result string :=
  p ← to_primitive v; Ok (primitive_text p).

(** [v === "s"] *)
Definition strict_eq_str (v : value) (s : string) : bool :=
  match v with
  | VStr s' => String.eqb s' s
  | _ => false
  end.

(** An object literal, its properties in source order. *)
Definition obj (fields : list (string * value)) : value :=
  VObj (list_to_map fields).

End JS.
Export JS.

(** Effects on a state [S] with exceptions: the state reached is kept when
    a throw interrupts the computation. *)
Definition eff (S A : Type) : Type := S -> result A * S.

Definition eff_bind {S A B} (m : eff S A) (k : A -> eff S B) : eff S B :=
  fun s =>
    match m s with
    | (Ok a, s') => k a s'
    | (Throw e, s') => (Throw e, s')
    end.

Global Instance eff_mbind S : MBind (eff S) := fun A B k m => eff_bind m k.
Global Instance eff_mret S : MRet (eff S) := fun A a s => (Ok a, s).

(** A pure, possibly throwing, step inside an effectful computation. *)
Definition lift {S A} (r : result A) : eff S A := fun s => (r, s).

Definition get_state {S} : eff S S := fun s => (Ok s, s).

(* --------------------------------------------------------------------- *)
(** ** slugify                                                            *)
(* --------------------------------------------------------------------- *)

(** A string is its sequence of UTF-16 code units; the regular expressions
    of [slugify] carry no [u] flag and work on code units. *)
Module Slug.

Definition hyphen : N := 45.

Definition is_upper (c : N) : bool := (65 <=? c)%N && (c <=? 90)%N.

Definition is_lower_alnum (c : N) : bool :=
  ((48 <=? c)%N && (c <=? 57)%N) || ((97 <=? c)%N && (c <=? 122)%N).

(** [\w] is [[A-Za-z0-9_]]. *)
Definition is_word (c : N) : bool :=
  is_lower_alnum c || is_upper c || (c =? 95)%N.

(** [\s], which is also the set that [trim] removes: TAB, LF, VT, FF,
    CR, SP, NBSP, U+1680, U+2000..U+200A, LS, PS, U+202F, U+205F,
    U+3000 and U+FEFF. *)
Definition is_space (c : N) : bool :=
  ((9 <=? c)%N && (c <=? 13)%N) || (c =? 32)%N || (c =? 160)%N
  || (c =? 5760)%N || ((8192 <=? c)%N && (c <=? 8202)%N)
  || (c =? 8232)%N || (c =? 8233)%N || (c =? 8239)%N || (c =? 8287)%N
  || (c =? 12288)%N || (c =? 65279)%N.

Definition is_hyphen (c : N) : bool := (c =? hyphen)%N.

(** [[\w\s-]]: what the first [replace] keeps. *)
Definition is_kept (c : N) : bool := is_word c || is_space c || is_hyphen c.

(** [[\s_-]]: what the second [replace] collapses. *)
Definition is_sep (c : N) : bool :=
  is_space c || (c =? 95)%N || is_hyphen c.

(** Drop the longest prefix whose code units all satisfy [p]. *)
Fixpoint strip_start (p : N -> bool) (s : list N) : list N :=
  match s with
  | [] => []
  | c :: s' => if p c then strip_start p s' else s
  end.

(** Drop the longest suffix whose code units all satisfy [p]. *)
Fixpoint strip_end (p : N -> bool) (s : list N) : list N :=
  match s with
  | [] => []
  | c :: s' =>
      match strip_end p s' with
      | [] => if p c then [] else [c]
      | r => c :: r
      end
  end.

(** [.trim()] *)
Definition trim (s : list N) : list N :=
  strip_end is_space (strip_start is_space s).

(** [.replace(/[^\w\s-]/g, '')] *)
Definition remove_unkept (s : list N) : list N := filter (fun c => is_kept c = true) s.

(** [.replace(/[\s_-]+/g, "-")]: scanning left to right, the first code
    unit of a run of separators is replaced by a hyphen and the rest of
    the run is consumed with it; [in_run] tells that the scan is inside
    a run. *)
Fixpoint collapse_runs (in_run : bool) (s : list N) : list N :=
  match s with
  | [] => []
  | c :: s' =>
      if is_sep c
      then if in_run then collapse_runs true s'
           else hyphen :: collapse_runs true s'
      else c :: collapse_runs false s'
  end.

(** [.replace(/^-+|-+$/g, '')] *)
Definition strip_hyphens (s : list N) : list N :=
  strip_end is_hyphen (strip_start is_hyphen s).

(** [slugify], over the platform's [String.prototype.toLowerCase]. *)
Definition slugify (toLowerCase : list N -> list N) (s : list N) : list N :=
  strip_hyphens (collapse_runs false (remove_unkept (trim (toLowerCase s)))).

(** What [slugify] produces: lower-case letters, digits and single
    hyphens, with no hyphen at either end. *)
Definition is_slug_unit (c : N) : bool := is_lower_alnum c || is_hyphen c.

Fixpoint no_double_hyphen (s : list N) : Prop :=
  match s with
  | [] => True
  | c :: s' =>
      (is_hyphen c = true -> head s' ≠ Some hyphen) /\ no_double_hyphen s'
  end.

Record slug (s : list N) : Prop := {
  slug_units : Forall (fun c => is_slug_unit c = true) s;
  slug_single : no_double_hyphen s;
  slug_head : head s ≠ Some hyphen;
  slug_last : last s ≠ Some hyphen
}.

(** Sample platform: lower-casing of the Latin-1 range, which is what
    [toLowerCase] does on code units below 256; other code units are
    left alone. *)
Definition latin1_lower_unit (c : N) : N :=
  if is_upper c then (c + 32)%N
  else if ((192 <=? c)%N && (c <=? 222)%N) && negb (c =? 215)%N
       then (c + 32)%N
       else c.

Definition latin1_lower (s : list N) : list N := map latin1_lower_unit s.

Fixpoint units (s : string) : list N :=
  match s with
  | EmptyString => []
  | String c s' => N_of_ascii c :: units s'
  end.

End Slug.

(* --------------------------------------------------------------------- *)
(** ** The host: configuration, clock and transport                       *)
(* --------------------------------------------------------------------- *)

(** [process.env]: each entry is a string or [undefined]. *)
Record process_env := {
  ALLOW_NOTIF : value;
  ALLOW_LOG_NOTIF : value;
  ERROR_HOOK : value;
  LOG_HOOK : value;
  NODE_ENV : value
}.

(** How the promise of [axios.post] ends: it is fulfilled, it is rejected
    with a reason ([err] is the text that a template literal prints for
    it), or it never settles. *)
Inductive outcome :=
| Fulfilled
| Rejected (err : string)
| Pending.

(** [transport k] is the outcome of the [k]-th POST handed to axios and
    [date_time t] is [format(new Date(), "dd/MM/yyyy\tHH:mm:ss")] at
    instant [t]. *)
Record host := {
  env : process_env;
  transport : nat -> outcome;
  date_time : nat -> string
}.

Record post := { post_url : value; post_body : value }.

(** The POSTs made so far, oldest first, and the positions in [posts] of
    those whose promise has not been settled yet.  Every such promise
    carries the same two callbacks, the [then] and the [catch] of
    [custom_notify]. *)
Record world := {
  now : nat;
  posts : list post;
  in_flight : list nat
}.

Definition nl : string := String (ascii_of_nat 10) EmptyString.

Definition mrkdwn (text : string) : value :=
  obj [("type", VStr "mrkdwn"); ("text", VStr text)].

(** The message document written out at the three call sites: a section
    with the time between backquotes, then a context with [text]. *)
Definition blocks (dateTime text : string) : value :=
  obj [("blocks",
        VArr [obj [("type", VStr "section");
                   ("text", mrkdwn ("`" ++ dateTime ++ "`"))];
              obj [("type", VStr "context");
                   ("elements", VArr [mrkdwn text])]])].

(* --------------------------------------------------------------------- *)
(** ** Notifier                                                           *)
(* --------------------------------------------------------------------- *)

(** [axios.post(hook, content)]: the request is handed to the transport. *)
Definition axios_post (hook content : value) : eff world unit :=
  fun w =>
    (Ok (),
     {| now := now w;
        posts := posts w ++ [{| post_url := hook; post_body := content |}];
        in_flight := in_flight w ++ [length (posts w)] |}).

(** [custom_notify] is [async] and neither awaits nor returns the promise
    of the POST: its own promise is fulfilled with [undefined] as soon as
    the body has run. *)
Definition custom_notify (h : host) (hook content : value) : eff world value :=
  if strict_eq_str (ALLOW_NOTIF (env h)) "true"
  then axios_post hook content ;; mret VUndefined
  else mret VUndefined.

Definition error_notification (h : host) (content : value) : eff world value :=
  custom_notify h (ERROR_HOOK (env h)) content.

Definition log_notification (h : host) (content : value) : eff world value :=
  if strict_eq_str (ALLOW_LOG_NOTIF (env h)) "true"
  then custom_notify h (LOG_HOOK (env h)) content
  else mret VUndefined.

(** The [catch] callback of [custom_notify]. *)
Definition on_rejected (h : host) (err : string) : eff world value :=
  w ← get_state;
  let dateTime := date_time h (now w) in
  error_notification h
    (blocks dateTime ("*error while sending notification* " ++ nl ++ err)) ;;
  mret VUndefined.

(** The first POST in flight that settles, and the POSTs left in flight. *)
Fixpoint next_settled (h : host) (l : list nat) : option (nat * list nat) :=
  match l with
  | [] => None
  | k :: rest =>
      match transport h k with
      | Pending =>
          match next_settled h rest with
          | Some (j, rest') => Some (j, k :: rest')
          | None => None
          end
      | _ => Some (k, rest)
      end
  end.

(** One turn of the event loop: a POST settles and its callback runs. *)
Definition settle (h : host) (w : world) : world :=
  match next_settled h (in_flight w) with
  | None => w
  | Some (k, rest) =>
      let w' := {| now := S (now w); posts := posts w; in_flight := rest |} in
      match transport h k with
      | Rejected err => snd (on_rejected h err w')
      | _ => w'
      end
  end.

Fixpoint run (h : host) (turns : nat) (w : world) : world :=
  match turns with
  | O => w
  | S n => run h n (settle h w)
  end.

(* --------------------------------------------------------------------- *)
(** ** Response sink                                                      *)
(* --------------------------------------------------------------------- *)

Inductive emission :=
| Status (code : value)
| Json (body : value)
| Send (body : value).

(** A response object: the data properties a read can see on it and what
    was written through it so far. *)
Record response := {
  res_props : gmap string value;
  res_out : list emission
}.

Definition emit (e : emission) : eff response unit :=
  fun res =>
    (Ok (), {| res_props := res_props res; res_out := res_out res ++ [e] |}).

(** [res.status(code)], [res.json(body)], [res.send(body)] *)
Definition status (code : value) : eff response unit := emit (Status code).
Definition json (body : value) : eff response unit := emit (Json body).
Definition send (body : value) : eff response unit := emit (Send body).

(** The response object as the argument of a property read. *)
Definition as_value (res : response) : value := VObj (res_props res).

Definition emitted (res : response) (es : list emission) : response :=
  {| res_props := res_props res; res_out := res_out res ++ es |}.

(** [error] works on the world and on its response. *)
Definition in_world {A} (m : eff world A) : eff (world * response) A :=
  fun s => let '(r, w) := m (fst s) in (r, (w, snd s)).

Definition in_response {A} (m : eff response A) : eff (world * response) A :=
  fun s => let '(r, res) := m (snd s) in (r, (fst s, res)).

(* --------------------------------------------------------------------- *)
(** ** Revision B (lines 339-644)                                         *)
(* --------------------------------------------------------------------- *)

Module RevB.
Section Formatter.

Context `{platform}.

(** The locale table, [require("./lang.json")]. *)
Variable lang : value.

Definition handleLanguage (request : value) : result value :=
  query ← get_prop request "query";
  l ← get_prop query "lang";
  if truthy l
  then query' ← get_prop request "query"; get_prop query' "lang"
  else Ok (VStr "eng").

(** [handleLanguage] is called before the [try]; [String(language)] and
    the two reads are inside it. *)
Definition translate (request : value) (message : string) : result value :=
  language ← handleLanguage request;
  try_catch
    (locale ← to_string language;
     entries ← get_prop lang locale;
     get_prop entries message)
    (fun _ => eng ← get_prop lang "eng"; get_prop eng message).

Definition custom (statusCode success data message : value)
  : eff response unit :=
  status statusCode ;;
  json (obj [("success", success); ("data", data); ("message", message)]).

Definition _custom (code data : value) : eff response unit :=
  status (if truthy code then code else VNum 200) ;;
  json (obj [("data", data)]).

Definition badResquest (req : value) : eff response unit :=
  message ← lift (translate req "missing_parameters");
  custom (VNum 400) (VBool false) VNull message.

Definition badResquestWithMsg (message : value) : eff response unit :=
  custom (VNum 400) (VBool false) VNull message.

(** [handleValidationErrors]: [errors] is what [validationResult(req)]
    collected and [next] is the rest of the middleware chain. *)
Definition handleValidationErrors (errors : list value)
    (next : eff response unit) : eff response unit :=
  match errors with
  | [] => next
  | _ => badResquestWithMsg (VArr errors)
  end.

Definition conflict (req : value) : eff response unit :=
  message ← lift (translate req "already_exist");
  custom (VNum 409) (VBool false) VNull message.

Definition notFound (req : value) : eff response unit :=
  message ← lift (translate req "not_found");
  custom (VNum 404) (VBool true) (obj []) message.

Definition success (req : value) : eff response unit :=
  message ← lift (translate req "successfull_operation");
  custom (VNum 201) (VBool false) VNull message.

Definition _success (data : value) : eff response unit :=
  _custom (VNum 201) data.

(** The template literal of the notification: it converts
    [process.env.NODE_ENV], then the error, and throws when one of them
    cannot be converted. *)
Definition error_text (h : host) (err : value) : result string :=
  node_env ← to_string (NODE_ENV (env h));
  text ← to_string err;
  Ok ("*ERREUR 500 - ENV " ++ node_env ++ "* " ++ nl ++ text).

(** The document of the notification is built first.  Then
    [await error_notification(...)] resumes once the promise of
    [custom_notify] is fulfilled, which no transport outcome delays. *)
Definition error (h : host) (err : value) : eff (world * response) unit :=
  w ← in_world get_state;
  let dateTime := date_time h (now w) in
  text ← lift (error_text h err);
  in_world (error_notification h (blocks dateTime text)) ;;
  in_response (custom (VNum 500) (VBool false) VNull err).

Definition forbidden (req : value) : eff response unit :=
  message ← lift (translate req "forbidden");
  custom (VNum 403) (VBool false) VNull message.

Definition unauthorized (req : value) : eff response unit :=
  message ← lift (translate req "unauthorized");
  custom (VNum 401) (VBool false) VNull message.

(** [res.status(422).send(translate(res, "422_error"))]: the status is
    set first, then [translate] reads the response object, not [req]. *)
Definition unprocessable_content (req : value) : eff response unit :=
  status (VNum 422) ;;
  res ← get_state;
  text ← lift (translate (as_value res) "422_error");
  send text.

Definition success_with_data (req data : value) : eff response unit :=
  status (VNum 200) ;; json data.

Definition success_with_datas (req data : value) : eff response unit :=
  status (VNum 200) ;; json (obj [("data", data)]).

End Formatter.
End RevB.

(* --------------------------------------------------------------------- *)
(** ** Revision A (lines 1-338)                                           *)
(* --------------------------------------------------------------------- *)

Module RevA.
Section Formatter.

Context `{platform}.

Variable lang : value.

(** [request?.query["lang"]]: the chain stops at a nullish [request]
    only; a missing [query] still throws. *)
Definition query_lang (request : value) : result value :=
  match request with
  | VUndefined | VNull => Ok VUndefined
  | _ => query ← get_prop request "query"; get_prop query "lang"
  end.

Definition handleLanguage (request : value) : result value :=
  l ← query_lang request;
  if negb (truthy l) then Ok (VStr "eng") else query_lang request.

(** [handleLanguage] is called inside the [try], and so is the
    conversion of its result to a property key. *)
Definition translate (request : value) (message : string) : result value :=
  try_catch
    (language ← handleLanguage request;
     locale ← to_string language;
     entries ← get_prop lang locale;
     get_prop entries message)
    (fun _ => eng ← get_prop lang "eng"; get_prop eng message).

Definition custom (statusCode success data message : value)
  : eff response unit :=
  status statusCode ;;
  json (obj [("success", success); ("data", data); ("message", message)]).

Definition _custom (code data : value) : eff response unit :=
  status (if truthy code then code else VNum 200) ;;
  json (obj [("data", data)]).

(** The body [{errors: [{msg, location}]}]. *)
Definition errors_body (msg : value) (location : string) : value :=
  obj [("errors", VArr [obj [("msg", msg); ("location", VStr location)]])].

Definition badResquest (req : value) : eff response unit :=
  status (VNum 400) ;;
  msg ← lift (translate req "missing_parameters");
  send (errors_body msg "params").

Definition badResquestWithMsg (message : value) : eff response unit :=
  status (VNum 400) ;; json (obj [("errors", message)]).

(** [handleValidationErrors]: [errors] is what [validationResult(req)]
    collected and [next] is the rest of the middleware chain. *)
Definition handleValidationErrors (errors : list value)
    (next : eff response unit) : eff response unit :=
  match errors with
  | [] => next
  | _ => badResquestWithMsg (VArr errors)
  end.

Definition conflict (req : value) : eff response unit :=
  status (VNum 409) ;;
  msg ← lift (translate req "already_exist");
  send (errors_body msg "body").

Definition notFound (req : value) : eff response unit :=
  status (VNum 404) ;;
  msg ← lift (translate req "not_found");
  send (errors_body msg "params").

Definition success (req : value) : eff response unit :=
  status (VNum 200) ;;
  msg ← lift (translate req "successfull_operation");
  send (obj [("success", VBool true); ("msg", msg)]).

Definition _success (data : value) : eff response unit :=
  _custom (VNum 201) data.

(** The template literal of the notification: each of [error?.code],
    [process.env.NODE_ENV], [error?.message], [error?.cause] and
    [error?.stack] is read and converted in turn, and the literal throws
    when a read or a conversion does. *)
Definition error_text (h : host) (err : value) : result string :=
  code ← get_prop_opt err "code";
  code_text ← to_string code;
  node_env ← to_string (NODE_ENV (env h));
  message ← get_prop_opt err "message";
  message_text ← to_string message;
  cause ← get_prop_opt err "cause";
  cause_text ← to_string cause;
  stack ← get_prop_opt err "stack";
  stack_text ← to_string stack;
  Ok ("*ERREUR " ++ code_text ++ " - ENV " ++ node_env ++ "* " ++ nl
      ++ " MESSAGE: " ++ message_text ++ nl
      ++ " CAUSE: " ++ cause_text ++ " " ++ nl
      ++ " STACK: " ++ stack_text).

(** The body [{errors: [{code, msg, stack, syscall}]}]. *)
Definition error_body (err : value) : result value :=
  code ← get_prop_opt err "code";
  message ← get_prop_opt err "message";
  stack ← get_prop_opt err "stack";
  syscall ← get_prop_opt err "syscall";
  Ok (obj [("errors",
            VArr [obj [("code", code); ("msg", message);
                       ("stack", stack); ("syscall", syscall)]])]).

Definition error (h : host) (err : value) : eff (world * response) unit :=
  w ← in_world get_state;
  let dateTime := date_time h (now w) in
  text ← lift (error_text h err);
  in_world (error_notification h (blocks dateTime text)) ;;
  in_response (status (VNum 500)) ;;
  body ← lift (error_body err);
  in_response (json body).

Definition forbidden (req : value) : eff response unit :=
  status (VNum 403) ;;
  text ← lift (translate req "forbidden");
  send text.

Definition unauthorized (req : value) : eff response unit :=
  status (VNum 401) ;;
  text ← lift (translate req "unauthorized");
  send text.

Definition unprocessable_content (req : value) : eff response unit :=
  status (VNum 422) ;;
  text ← lift (translate req "422_error");
  send text.

Definition success_with_data (data : value) : eff response unit :=
  status (VNum 200) ;; json data.

Definition success_with_datas (data : value) : eff response unit :=
  status (VNum 200) ;; json (obj [("data", data)]).

End Formatter.
End RevA.

(* --------------------------------------------------------------------- *)
(** ** Shared vocabulary and sample inputs                                *)
(* --------------------------------------------------------------------- *)

(** [lang.eng[message]], the entry of the default locale. *)
Definition default_entry `{platform} (lang : value) (message : string)
  : result value :=
  eng ← get_prop lang "eng"; get_prop eng message.

(** The locale that a request with [query.lang = l] asks for: the string
    of [l], or ["eng"] when [l] is falsy.  The conversion can throw. *)
Definition requested_locale `{platform} (l : value) : result string :=
  to_string (if truthy l then l else VStr "eng").

(** [lang[locale][message]] for the requested locale. *)
Definition locale_entry `{platform} (lang l : value) (message : string)
  : result value :=
  locale ← requested_locale l;
  entries ← get_prop lang locale;
  get_prop entries message.

(** The envelope [{success, data, message}] of [custom]. *)
Definition envelope (success data message : value) : value :=
  obj [("success", success); ("data", data); ("message", message)].

Definition notifications_enabled (h : host) : bool :=
  strict_eq_str (ALLOW_NOTIF (env h)) "true".

(** What [translate] owes a request that carries a query object whose
    [lang] is [l]: the default entry whenever the read under the requested
    locale throws, as it does when the table answers [undefined] there;
    when the table has an object there, that object's own entry for the
    key, else what the object inherits under that name, else [undefined];
    and no throw when the table has an object under [eng]. *)
Definition translate_contract `{platform}
    (translate : value -> string -> result value)
    (lang : value) (l request : value) (message : string) : Prop :=
  (forall e,
     locale_entry lang l message = Throw e ->
     translate request message = default_entry lang message) /\
  (forall locale,
     requested_locale l = Ok locale ->
     get_prop lang locale = Ok VUndefined ->
     translate request message = default_entry lang message) /\
  (forall locale entries,
     requested_locale l = Ok locale ->
     get_prop lang locale = Ok (VObj entries) ->
     translate request message =
     Ok (match entries !! message with
         | Some text => text
         | None => default VUndefined (inherited KObject message)
         end)) /\
  (forall eng,
     get_prop lang "eng" = Ok (VObj eng) ->
     ~ raises (translate request message)).

(* --------------------------------------------------------------------- *)
(** ** A sample platform                                                  *)
(* --------------------------------------------------------------------- *)

(** A platform in the manner of Node.js, on which the examples run.  It is
    exact on what a plain object, an error, an array or a primitive
    inherits, on the reads of the [Object] function, of the prototype
    objects and of their methods, and on the calls that the standard
    conversions make; of another built-in it knows the name, the number
    of parameters and the members every function has.  The theorems hold
    for every platform. *)
Module Node.

(** The methods of the prototypes, each with its number of parameters. *)
Definition object_methods : list (string * Z) :=
  [("__defineGetter__", 2); ("__defineSetter__", 2); ("hasOwnProperty", 1);
   ("__lookupGetter__", 1); ("__lookupSetter__", 1); ("isPrototypeOf", 1);
   ("propertyIsEnumerable", 1); ("toString", 0); ("valueOf", 0);
   ("toLocaleString", 0)]%Z.

Definition function_methods : list (string * Z) :=
  [("apply", 2); ("bind", 1); ("call", 1); ("toString", 0)]%Z.

Definition error_methods : list (string * Z) := [("toString", 0)]%Z.

Definition array_methods : list (string * Z) :=
  [("at", 1); ("concat", 1); ("copyWithin", 2); ("entries", 0);
   ("every", 1); ("fill", 1); ("filter", 1); ("find", 1); ("findIndex", 1);
   ("findLast", 1); ("findLastIndex", 1); ("flat", 0); ("flatMap", 1);
   ("forEach", 1); ("includes", 1); ("indexOf", 1); ("join", 1);
   ("keys", 0); ("lastIndexOf", 1); ("map", 1); ("pop", 0); ("push", 1);
   ("reduce", 1); ("reduceRight", 1); ("reverse", 0); ("shift", 0);
   ("slice", 2); ("some", 1); ("sort", 1); ("splice", 2);
   ("toLocaleString", 0); ("toReversed", 0); ("toSorted", 1);
   ("toSpliced", 2); ("toString", 0); ("unshift", 1); ("values", 0);
   ("with", 2)]%Z.

Definition string_methods : list (string * Z) :=
  [("anchor", 1); ("at", 1); ("big", 0); ("blink", 0); ("bold", 0);
   ("charAt", 1); ("charCodeAt", 1); ("codePointAt", 1); ("concat", 1);
   ("endsWith", 1); ("fixed", 0); ("fontcolor", 1); ("fontsize", 1);
   ("includes", 1); ("indexOf", 1); ("isWellFormed", 0); ("italics", 0);
   ("lastIndexOf", 1); ("link", 1); ("localeCompare", 1); ("match", 1);
   ("matchAll", 1); ("normalize", 0); ("padEnd", 1); ("padStart", 1);
   ("repeat", 1); ("replace", 2); ("replaceAll", 2); ("search", 1);
   ("slice", 2); ("small", 0); ("split", 2); ("startsWith", 1);
   ("strike", 0); ("sub", 0); ("substr", 2); ("substring", 2); ("sup", 0);
   ("toLocaleLowerCase", 0); ("toLocaleUpperCase", 0); ("toLowerCase", 0);
   ("toString", 0); ("toUpperCase", 0); ("toWellFormed", 0); ("trim", 0);
   ("trimEnd", 0); ("trimLeft", 0); ("trimRight", 0); ("trimStart", 0);
   ("valueOf", 0)]%Z.

Definition number_methods : list (string * Z) :=
  [("toExponential", 1); ("toFixed", 1); ("toLocaleString", 0);
   ("toPrecision", 1); ("toString", 1); ("valueOf", 0)]%Z.

Definition boolean_methods : list (string * Z) :=
  [("toString", 0); ("valueOf", 0)]%Z.

(** The functions that [Object] carries. *)
Definition object_statics : list (string * Z) :=
  [("assign", 2); ("create", 2); ("defineProperties", 2);
   ("defineProperty", 3); ("entries", 1); ("freeze", 1); ("fromEntries", 1);
   ("getOwnPropertyDescriptor", 2); ("getOwnPropertyDescriptors", 1);
   ("getOwnPropertyNames", 1); ("getOwnPropertySymbols", 1);
   ("getPrototypeOf", 1); ("groupBy", 2); ("hasOwn", 2); ("is", 2);
   ("isExtensible", 1); ("isFrozen", 1); ("isSealed", 1); ("keys", 1);
   ("preventExtensions", 1); ("seal", 1); ("setPrototypeOf", 2);
   ("values", 1)]%Z.

Definition constructors : list string :=
  ["Object"; "Function"; "Error"; "Array"; "String"; "Number"; "Boolean"].

Definition methods_of (ctor : string) : list (string * Z) :=
  if String.eqb ctor "Object" then object_methods
  else if String.eqb ctor "Function" then function_methods
  else if String.eqb ctor "Error" then error_methods
  else if String.eqb ctor "Array" then array_methods
  else if String.eqb ctor "String" then string_methods
  else if String.eqb ctor "Number" then number_methods
  else if String.eqb ctor "Boolean" then boolean_methods
  else [].

Definition assoc {A} (k : string) (table : list (string * A)) : option A :=
  (fun found => snd (snd found)) <$> list_find (fun e => fst e = k) table.

Definition arity (table : list (string * Z)) (k : string) : option Z :=
  assoc k table.

Definition prototype_id (ctor : string) : string := ctor ++ ".prototype".
Definition method_id (ctor k : string) : string :=
  ctor ++ ".prototype." ++ k.
Definition static_id (ctor k : string) : string := ctor ++ "." ++ k.

(** The functions of the sample: their name and number of parameters. *)
Definition functions : list (string * (string * Z)) :=
  ((fun c => (c, (c, 1%Z))) <$> constructors)
  ++ (c ← constructors;
      (fun e => (method_id c (fst e), e)) <$> methods_of c)
  ++ ((fun e => (static_id "Object" (fst e), e)) <$> object_statics).

Definition function_of (id : string) : option (string * Z) :=
  assoc id functions.

(** The own members of the prototype object of [ctor]. *)
Definition prototype_own (ctor k : string) : option value :=
  if String.eqb k "constructor" then Some (VBuiltin ctor)
  else match arity (methods_of ctor) k with
       | Some _ => Some (VBuiltin (method_id ctor k))
       | None =>
           if String.eqb ctor "Error" && String.eqb k "name"
           then Some (VStr "Error")
           else if String.eqb ctor "Error" && String.eqb k "message"
           then Some (VStr EmptyString)
           else if String.eqb ctor "Function" && String.eqb k "name"
           then Some (VStr EmptyString)
           else if (String.eqb ctor "Function" || String.eqb ctor "Array"
                    || String.eqb ctor "String")
                   && String.eqb k "length"
           then Some (VNum 0)
           else None
       end.

(** What an instance whose prototype is that of [ctor] inherits under
    [k]: the prototype's own member, else that of [Object.prototype]. *)
Definition through (ctor k : string) : option value :=
  if String.eqb k "__proto__" then Some (VBuiltin (prototype_id ctor))
  else match prototype_own ctor k with
       | Some v => Some v
       | None => prototype_own "Object" k
       end.

Definition ctor_of (kd : kind) : string :=
  match kd with
  | KObject => "Object"
  | KError => "Error"
  | KArray => "Array"
  | KString => "String"
  | KNumber => "Number"
  | KBoolean => "Boolean"
  end.

Definition node_inherited (kd : kind) (k : string) : option value :=
  through (ctor_of kd) k.

(** A read on a function: its own [name], [length] and other members,
    then [Function.prototype], whose [caller] and [arguments] accessors
    throw, then [Object.prototype]. *)
Definition function_get (id name : string) (params : Z) (k : string)
  : result value :=
  if String.eqb k "name" then Ok (VStr name)
  else if String.eqb k "length" then Ok (VNum params)
  else if String.eqb k "prototype" && bool_decide (id ∈ constructors)
  then Ok (VBuiltin (prototype_id id))
  else match (if String.eqb id "Object" then arity object_statics k
              else None) with
       | Some _ => Ok (VBuiltin (static_id "Object" k))
       | None =>
           if String.eqb k "caller" || String.eqb k "arguments"
           then Throw TypeError
           else Ok (default VUndefined (through "Function" k))
       end.

(** A read on a prototype object. *)
Definition prototype_get (ctor k : string) : result value :=
  if String.eqb k "__proto__"
  then Ok (if String.eqb ctor "Object" then VNull
           else VBuiltin (prototype_id "Object"))
  else if String.eqb ctor "Function"
          && (String.eqb k "caller" || String.eqb k "arguments")
  then Throw TypeError
  else Ok (match prototype_own ctor k with
           | Some v => v
           | None => default VUndefined (prototype_own "Object" k)
           end).

Definition prototype_of (id : string) : option string :=
  snd <$> list_find (fun c => prototype_id c = id) constructors.

Definition node_get (id k : string) : result value :=
  match prototype_of id with
  | Some ctor => prototype_get ctor k
  | None =>
      match function_of id with
      | Some (name, params) => function_get id name params k
      | None => Ok VUndefined
      end
  end.

Definition node_callable (id : string) : bool :=
  bool_decide (is_Some (function_of id))
  || String.eqb id (prototype_id "Function").

(** The string of an integer: decimal digits below [10^21], and the
    exponent notation from there on. *)
Fixpoint drop_zeros (digits : list ascii) : list ascii :=
  match digits with
  | [] => []
  | d :: rest =>
      match drop_zeros rest with
      | [] => if Ascii.eqb d "0" then [] else [d]
      | r => d :: r
      end
  end.

Definition exponent_text (n : Z) : string :=
  match list_ascii_of_string (pretty (Z.abs n)) with
  | [] => EmptyString
  | d :: rest =>
      (if (n <? 0)%Z then "-" else EmptyString)
      ++ String d
           (match drop_zeros rest with
            | [] => EmptyString
            | frac => String "." (string_of_list_ascii frac)
            end)
      ++ "e+" ++ pretty (length rest)
  end.

Definition node_number_text (n : Z) : string :=
  if (Z.abs n <? 10 ^ 21)%Z then pretty n else exponent_text n.

Definition text_of_primitive (v : value) : string :=
  match v with
  | VUndefined => "undefined"
  | VNull => "null"
  | VBool true => "true"
  | VBool false => "false"
  | VNum n => node_number_text n
  | VStr s => s
  | _ => EmptyString
  end.

Definition function_text (id : string) : result value :=
  match function_of id with
  | Some (name, _) =>
      Ok (VStr ("function " ++ name ++ "() { [native code] }"))
  | None =>
      if String.eqb id (prototype_id "Function")
      then Ok (VStr "function () { [native code] }")
      else Throw TypeError
  end.

(** [Error.prototype.toString]: the name, or ["Error"], and the message,
    with a colon between them when neither is empty.  The sample converts
    a name and a message that are primitives. *)
Definition error_text (props : gmap string value) : result value :=
  let name := match props !! "name" with
              | Some VUndefined | None => Some "Error"
              | Some v => if is_primitive v then Some (text_of_primitive v)
                          else None
              end in
  let message := match props !! "message" with
                 | Some VUndefined | None => Some EmptyString
                 | Some v => if is_primitive v then Some (text_of_primitive v)
                             else None
                 end in
  match name, message with
  | Some n, Some m =>
      Ok (VStr (if String.eqb n EmptyString then m
                else if String.eqb m EmptyString then n
                else n ++ ": " ++ m))
  | _, _ => Throw TypeError
  end.

Fixpoint join (sep : string) (parts : list string) : string :=
  match parts with
  | [] => EmptyString
  | [p] => p
  | p :: rest => p ++ sep ++ join sep rest
  end.

(** [Array.prototype.join] with a comma: [null] and [undefined] give the
    empty string, an array its own joined text.  The sample converts
    primitives, arrays, plain objects that do not redefine [toString],
    errors and its own functions. *)
Fixpoint element_text (v : value) : result string :=
  match v with
  | VUndefined | VNull => Ok EmptyString
  | VArr xs =>
      (fix elements (l : list value) : result (list string) :=
         match l with
         | [] => Ok []
         | x :: l' =>
             t ← element_text x; ts ← elements l'; Ok (t :: ts)
         end) xs ≫= fun ts => Ok (join "," ts)
  | VObj props =>
      match props !! "toString" with
      | None => Ok "[object Object]"
      | Some _ => Throw TypeError
      end
  | VError props =>
      r ← error_text props;
      Ok (text_of_primitive r)
  | VBuiltin id => r ← function_text id; Ok (text_of_primitive r)
  | _ => Ok (text_of_primitive v)
  end.

Definition array_text (xs : list value) : result value :=
  t ← element_text (VArr xs); Ok (VStr t).

Definition class_tag (v : value) : string :=
  match v with
  | VUndefined => "Undefined"
  | VNull => "Null"
  | VBool _ => "Boolean"
  | VNum _ => "Number"
  | VStr _ => "String"
  | VArr _ => "Array"
  | VObj _ => "Object"
  | VError _ => "Error"
  | VBuiltin id => if node_callable id then "Function" else "Object"
  end.

(** The calls of the standard conversions; any other call answers
    [undefined]. *)
Definition node_call (id : string) (this : value) : result value :=
  if String.eqb id (method_id "Object" "toString")
  then Ok (VStr ("[object " ++ class_tag this ++ "]"))
  else if String.eqb id (method_id "Object" "valueOf") then Ok this
  else if String.eqb id (method_id "Function" "toString")
  then match this with
       | VBuiltin f => function_text f
       | _ => Throw TypeError
       end
  else if String.eqb id (method_id "Error" "toString")
  then match this with
       | VError props | VObj props => error_text props
       | _ => Throw TypeError
       end
  else if String.eqb id (method_id "Array" "toString")
          || String.eqb id (method_id "Array" "join")
  then match this with
       | VArr xs => array_text xs
       | _ => Ok (VStr ("[object " ++ class_tag this ++ "]"))
       end
  else Ok VUndefined.

Definition node : platform :=
  {| inherited := node_inherited;
     builtin_get := node_get;
     builtin_callable := node_callable;
     builtin_call := node_call;
     number_text := node_number_text |}.

End Node.

(* --------------------------------------------------------------------- *)
(** ** Sample inputs                                                      *)
(* --------------------------------------------------------------------- *)

Module Samples.

Definition sample_lang : value :=
  obj [("eng", obj [("missing_parameters", VStr "Missing parameters");
                    ("not_found", VStr "Not found");
                    ("successfull_operation", VStr "Successful operation");
                    ("forbidden", VStr "Forbidden");
                    ("422_error", VStr "Unprocessable content")]);
       ("fra", obj [("missing_parameters", VStr "Parametres manquants");
                    ("not_found", VStr "Introuvable");
                    ("422_error", VStr "Contenu non traitable")])].

Definition with_lang (l : value) : value := obj [("query", obj [("lang", l)])].

Definition req_eng : value := with_lang (VStr "eng").
Definition req_fra : value := with_lang (VStr "fra").
Definition req_deu : value := with_lang (VStr "deu").
Definition req_no_lang : value := obj [("query", obj [])].
Definition req_no_query : value := obj [].

(** An error as handlers pass it to [error], and a value that no template
    literal can convert. *)
Definition boom : value :=
  VError (list_to_map [("message", VStr "boom");
                       ("stack", VStr "Error: boom at handler")]).
Definition unprintable : value := obj [("toString", VNum 1)].

(** A response object as the framework hands it over: no [query]
    property, nothing written yet. *)
Definition plain_res : response := {| res_props := ∅; res_out := [] |}.

(** A response object that was given a [query] property. *)
Definition res_fra : response :=
  {| res_props := {[ "query" := obj [("lang", VStr "fra")] ]};
     res_out := [Status (VNum 200)] |}.

Definition env_on : process_env :=
  {| ALLOW_NOTIF := VStr "true"; ALLOW_LOG_NOTIF := VStr "true";
     ERROR_HOOK := VStr "https://hooks.example/error";
     LOG_HOOK := VStr "https://hooks.example/log";
     NODE_ENV := VStr "production" |}.

Definition env_off : process_env :=
  {| ALLOW_NOTIF := VUndefined; ALLOW_LOG_NOTIF := VStr "true";
     ERROR_HOOK := VStr "https://hooks.example/error";
     LOG_HOOK := VStr "https://hooks.example/log";
     NODE_ENV := VStr "production" |}.

Definition clock (t : nat) : string := "01/01/2024 00:00:0" ++ pretty t.

(** The transport refuses every POST. *)
Definition host_down : host :=
  {| env := env_on; transport := fun _ => Rejected "Error: ECONNREFUSED";
     date_time := clock |}.

(** The transport refuses the first POST and accepts the others. *)
Definition host_flaky : host :=
  {| env := env_on;
     transport := fun k => match k with
                           | O => Rejected "Error: ECONNREFUSED"
                           | S _ => Fulfilled
                           end;
     date_time := clock |}.

Definition host_off : host :=
  {| env := env_off; transport := fun _ => Rejected "Error: ECONNREFUSED";
     date_time := clock |}.

Definition idle : world := {| now := 0; posts := []; in_flight := [] |}.

Definition hook : value := VStr "https://hooks.example/custom".
Definition payload : value := obj [("text", VStr "hello")].

End Samples.

(* ===================================================================== *)
(** * Part II: properties                                                 *)
(* ===================================================================== *)

(* --------------------------------------------------------------------- *)
(** ** slugify                                                            *)
(* --------------------------------------------------------------------- *)

Module SlugFacts.
Import Slug.

Ltac classes :=
  unfold is_slug_unit, is_kept, is_sep, is_word, is_space, is_hyphen,
    is_lower_alnum, is_upper, hyphen in *;
  repeat match goal with
         | H : _ = false |- _ => apply not_true_iff_false in H
         | |- _ = false => apply not_true_iff_false; intro
         end;
  rewrite ?orb_true_iff, ?andb_true_iff, ?N.leb_le, ?N.eqb_eq in *;
  lia.

Lemma kept_lower_unit c :
  is_kept c = true -> is_upper c = false -> is_sep c = false ->
  is_slug_unit c = true.
Proof. intros. classes. Qed.

Lemma slug_unit_kept c : is_slug_unit c = true -> is_kept c = true.
Proof. intros. classes. Qed.

Lemma slug_unit_not_space c : is_slug_unit c = true -> is_space c = false.
Proof. intros. classes. Qed.

Lemma slug_unit_sep c : is_slug_unit c = true -> is_sep c = is_hyphen c.
Proof.
  intros H. destruct (is_hyphen c) eqn:E; [classes|classes].
Qed.

Lemma not_sep_not_hyphen c : is_sep c = false -> c ≠ hyphen.
Proof. intros H ->. classes. Qed.

Lemma is_hyphen_spec c : is_hyphen c = true <-> c = hyphen.
Proof. unfold is_hyphen. apply N.eqb_eq. Qed.

Section Strip.
Variable p : N -> bool.

Lemma strip_start_Forall (P : N -> Prop) s :
  Forall P s -> Forall P (strip_start p s).
Proof.
  induction 1 as [|c s Hc Hs IH]; simpl; [constructor|].
  destruct (p c); [exact IH | by constructor].
Qed.

Lemma strip_end_Forall (P : N -> Prop) s :
  Forall P s -> Forall P (strip_end p s).
Proof.
  induction 1 as [|c s Hc Hs IH]; simpl; [constructor|].
  destruct (strip_end p s) as [|r0 r].
  - destruct (p c); by repeat constructor.
  - by constructor.
Qed.

Lemma strip_start_id s :
  (forall c, head s = Some c -> p c = false) -> strip_start p s = s.
Proof.
  destruct s as [|c s]; simpl; [done|].
  intros H. by rewrite (H c eq_refl).
Qed.

Lemma strip_end_id s :
  (forall c, last s = Some c -> p c = false) -> strip_end p s = s.
Proof.
  induction s as [|c s IH]; simpl; [done|].
  intros H. destruct s as [|d s].
  - simpl. by rewrite (H c eq_refl).
  - rewrite IH by exact H. done.
Qed.

Lemma head_strip_start s c : head (strip_start p s) = Some c -> p c = false.
Proof.
  induction s as [|d s IH]; simpl; [done|].
  destruct (p d) eqn:E; [exact IH|].
  simpl. by intros [= <-].
Qed.

Lemma head_strip_end s c : head (strip_end p s) = Some c -> head s = Some c.
Proof.
  destruct s as [|d s]; simpl; [done|].
  destruct (strip_end p s); [destruct (p d)|]; simpl; done.
Qed.

Lemma last_strip_end s c : last (strip_end p s) = Some c -> p c = false.
Proof.
  induction s as [|d s IH]; simpl; [done|].
  destruct (strip_end p s) as [|r0 r] eqn:E.
  - destruct (p d) eqn:Ed; simpl; [done|]. by intros [= <-].
  - exact IH.
Qed.

Lemma strip_start_single s :
  no_double_hyphen s -> no_double_hyphen (strip_start p s).
Proof.
  induction s as [|c s IH]; simpl; [done|].
  intros [Hc Hs]. destruct (p c); [by apply IH|]. by split.
Qed.

Lemma strip_end_single s :
  no_double_hyphen s -> no_double_hyphen (strip_end p s).
Proof.
  induction s as [|c s IH]; simpl; [done|].
  intros [Hc Hs]. specialize (IH Hs).
  destruct (strip_end p s) as [|r0 r] eqn:E.
  - destruct (p c); simpl; [done|]. split; [done|done].
  - split; [|exact IH].
    intros Hy Hr. apply (Hc Hy). apply head_strip_end. by rewrite E.
Qed.

End Strip.

Lemma collapse_units b s :
  Forall (fun c => is_kept c = true) s ->
  Forall (fun c => is_upper c = false) s ->
  Forall (fun c => is_slug_unit c = true) (collapse_runs b s).
Proof.
  intros Hk. revert b. induction Hk as [|c s Hc Hs IH]; intros b Hu; simpl.
  - constructor.
  - inversion Hu as [|? ? Huc Hus]; subst.
    destruct (is_sep c) eqn:E.
    + destruct b; [by apply IH|]. constructor; [done|by apply IH].
    + constructor; [by apply kept_lower_unit|by apply IH].
Qed.

Lemma collapse_single s : forall b,
  no_double_hyphen (collapse_runs b s) /\
  (b = true -> head (collapse_runs b s) ≠ Some hyphen).
Proof.
  induction s as [|c s IH]; intros b; simpl; [done|].
  destruct (is_sep c) eqn:E.
  - destruct b.
    + apply IH.
    + destruct (IH true) as [Hn Hh]. split; [|done].
      simpl. split; [|done]. intros _. by apply Hh.
  - destruct (IH false) as [Hn _]. split.
    + simpl. split; [|done]. intros Hy.
      apply is_hyphen_spec in Hy. by apply not_sep_not_hyphen in E.
    + intros _ [= ->]. by apply not_sep_not_hyphen in E.
Qed.

Lemma collapse_id s : forall b,
  Forall (fun c => is_slug_unit c = true) s ->
  no_double_hyphen s ->
  (b = true -> head s ≠ Some hyphen) ->
  collapse_runs b s = s.
Proof.
  induction s as [|c s IH]; intros b Hu Hn Hh; simpl; [done|].
  inversion Hu as [|? ? Hc Hs]; subst. destruct Hn as [Hcn Hsn].
  rewrite (slug_unit_sep c Hc). destruct (is_hyphen c) eqn:E.
  - apply is_hyphen_spec in E as ->. destruct b.
    + by destruct Hh.
    + f_equal. apply IH; [done|done|]. intros _. by apply Hcn.
  - f_equal. by apply IH.
Qed.

Lemma remove_unkept_kept s : Forall (fun c => is_kept c = true) (remove_unkept s).
Proof.
  unfold remove_unkept. apply Forall_forall. intros c Hc.
  by apply list_elem_of_filter in Hc as [Hc _].
Qed.

Lemma remove_unkept_Forall (P : N -> Prop) s :
  Forall P s -> Forall P (remove_unkept s).
Proof.
  unfold remove_unkept. rewrite !Forall_forall. intros H c Hc.
  apply list_elem_of_filter in Hc as [_ Hc]. by apply H.
Qed.

Lemma remove_unkept_id s :
  Forall (fun c => is_kept c = true) s -> remove_unkept s = s.
Proof.
  unfold remove_unkept. induction 1 as [|c s Hc Hs IH]; [done|].
  rewrite filter_cons_True by done. by f_equal.
Qed.

Section Idempotence.

(** What the proof needs of [String.prototype.toLowerCase]: its result
    holds no upper-case ASCII letter, and it leaves a string of lower-case
    letters, digits and hyphens as it is. *)
Variable toLowerCase : list N -> list N.
Hypothesis toLowerCase_no_upper :
  forall s, Forall (fun c => is_upper c = false) (toLowerCase s).
Hypothesis toLowerCase_slug :
  forall s, Forall (fun c => is_slug_unit c = true) s -> toLowerCase s = s.

Lemma slugify_slug s : slug (slugify toLowerCase s).
Proof.
  unfold slugify, strip_hyphens, trim.
  set (x := remove_unkept _).
  assert (Hk : Forall (fun c => is_kept c = true) x) by apply remove_unkept_kept.
  assert (Hu : Forall (fun c => is_upper c = false) x).
  { apply remove_unkept_Forall, strip_end_Forall, strip_start_Forall,
      toLowerCase_no_upper. }
  split.
  - apply strip_end_Forall, strip_start_Forall. by apply collapse_units.
  - apply strip_end_single, strip_start_single, collapse_single.
  - intros H. apply head_strip_end, head_strip_start in H.
    by rewrite (proj2 (is_hyphen_spec hyphen) eq_refl) in H.
  - intros H. apply last_strip_end in H.
    by rewrite (proj2 (is_hyphen_spec hyphen) eq_refl) in H.
Qed.

Lemma slug_fixed s : slug s -> slugify toLowerCase s = s.
Proof.
  intros [Hu Hn Hh Hl]. unfold slugify, strip_hyphens, trim.
  rewrite (toLowerCase_slug s Hu).
  assert (Hsp : forall c, c ∈ s -> is_space c = false).
  { intros c Hc. apply slug_unit_not_space.
    by apply (proj1 (Forall_forall _ _) Hu). }
  rewrite (strip_start_id is_space s).
  2:{ intros c Hc. apply Hsp. destruct s; simplify_eq/=. left. }
  rewrite (strip_end_id is_space s).
  2:{ intros c Hc. apply Hsp. by apply last_Some_elem_of. }
  rewrite remove_unkept_id.
  2:{ eapply Forall_impl; [exact Hu|]. apply slug_unit_kept. }
  rewrite collapse_id by done.
  rewrite (strip_start_id is_hyphen s).
  2:{ intros c Hc. destruct (is_hyphen c) eqn:E; [|done].
      apply is_hyphen_spec in E as ->. done. }
  apply strip_end_id.
  intros c Hc. destruct (is_hyphen c) eqn:E; [|done].
  apply is_hyphen_spec in E as ->. done.
Qed.

(** C9. [slugify] is idempotent: applying it to one of its results gives
    that result back, for every string, whatever the platform's
    [toLowerCase] does outside ASCII as long as it produces no upper-case
    ASCII letter and leaves lower-case ASCII letters, digits and hyphens
    alone. *)
Theorem slugify_idempotent s :
  slugify toLowerCase (slugify toLowerCase s) = slugify toLowerCase s.
Proof. apply slug_fixed, slugify_slug. Qed.

End Idempotence.
End SlugFacts.

Module SlugSample.
Import Slug SlugFacts.

Lemma latin1_lower_no_upper s :
  Forall (fun c => is_upper c = false) (latin1_lower s).
Proof.
  unfold latin1_lower. apply Forall_forall. intros c Hc.
  apply list_elem_of_fmap in Hc as (d & -> & _).
  unfold latin1_lower_unit.
  destruct (is_upper d) eqn:E1; [classes|].
  destruct ((192 <=? d)%N && (d <=? 222)%N && negb (d =? 215)%N) eqn:E2;
    [|done].
  apply andb_true_iff in E2 as [E2 _]. classes.
Qed.

Lemma latin1_lower_slug s :
  Forall (fun c => is_slug_unit c = true) s -> latin1_lower s = s.
Proof.
  unfold latin1_lower. induction 1 as [|c s Hc Hs IH]; simpl; [done|].
  rewrite IH. f_equal. unfold latin1_lower_unit.
  destruct (is_upper c) eqn:E1; [classes|].
  destruct ((192 <=? c)%N && (c <=? 222)%N && negb (c =? 215)%N) eqn:E2;
    [|done].
  apply andb_true_iff in E2 as [E2 _]. classes.
Qed.

Lemma slugify_idempotent_witness :
  slugify latin1_lower (slugify latin1_lower (units "  Hello, World!  "))
  = slugify latin1_lower (units "  Hello, World!  ").
Proof.
  exact (slugify_idempotent latin1_lower latin1_lower_no_upper
           latin1_lower_slug (units "  Hello, World!  ")).
Defined.

(** The worked examples of the specification. *)
Example slugify_hello :
  slugify latin1_lower (units "  Hello, World!  ") = units "hello-world".
Proof. reflexivity. Qed.

Example slugify_already :
  slugify latin1_lower (units "Already-Slugged") = units "already-slugged".
Proof. reflexivity. Qed.

Example slugify_multi :
  slugify latin1_lower (units "___multi   spaces---dash")
  = units "multi-spaces-dash".
Proof. reflexivity. Qed.

End SlugSample.

(* --------------------------------------------------------------------- *)
(** ** Translator                                                         *)
(* --------------------------------------------------------------------- *)

Lemma bind_Ok {A B} (a : A) (k : A -> result B) : (x ← Ok a; k x) = k a.
Proof. reflexivity. Qed.

Lemma bind_Throw {A B} (e : exn) (k : A -> result B) :
  (x ← Throw e; k x) = Throw e.
Proof. reflexivity. Qed.


Section Reads.
Context `{platform}.

Lemma get_prop_Ok_not_nullish v k x :
  get_prop v k = Ok x -> v ≠ VUndefined /\ v ≠ VNull.
Proof. by destruct v. Qed.

(** The string of a string is itself, on every platform. *)
Lemma to_string_VStr s : to_string (VStr s) = Ok s.
Proof. reflexivity. Qed.

Lemma requested_locale_eng : requested_locale (VStr "eng") = Ok "eng".
Proof. reflexivity. Qed.

Lemma requested_locale_falsy l :
  truthy l = false -> requested_locale l = Ok "eng".
Proof. unfold requested_locale. by intros ->. Qed.

End Reads.

Module TranslateFacts.

Section General.
Context `{platform}.

Lemma RevB_handleLanguage_query req q l :
  get_prop req "query" = Ok q -> get_prop q "lang" = Ok l ->
  RevB.handleLanguage req = Ok (if truthy l then l else VStr "eng").
Proof.
  intros Hq Hl. unfold RevB.handleLanguage.
  rewrite Hq, bind_Ok, Hl, bind_Ok.
  destruct (truthy l); [|done]. by rewrite bind_Ok.
Qed.

Lemma RevA_query_lang req q l :
  get_prop req "query" = Ok q -> get_prop q "lang" = Ok l ->
  RevA.query_lang req = Ok l.
Proof.
  intros Hq Hl. unfold RevA.query_lang.
  destruct req; try discriminate; by rewrite Hq, bind_Ok.
Qed.

Lemma RevA_handleLanguage_query req q l :
  get_prop req "query" = Ok q -> get_prop q "lang" = Ok l ->
  RevA.handleLanguage req = Ok (if truthy l then l else VStr "eng").
Proof.
  intros Hq Hl. unfold RevA.handleLanguage.
  rewrite (RevA_query_lang req q l Hq Hl), bind_Ok.
  by destruct (truthy l).
Qed.

(** With a query object in the request both revisions compute the same
    thing: the read under the requested locale, then the default entry
    if that read throws. *)
Lemma RevB_translate_query lang req q l message :
  get_prop req "query" = Ok q -> get_prop q "lang" = Ok l ->
  RevB.translate lang req message =
  try_catch (locale_entry lang l message)
    (fun _ => default_entry lang message).
Proof.
  intros Hq Hl. unfold RevB.translate.
  by rewrite (RevB_handleLanguage_query req q l Hq Hl), bind_Ok.
Qed.

Lemma RevA_translate_query lang req q l message :
  get_prop req "query" = Ok q -> get_prop q "lang" = Ok l ->
  RevA.translate lang req message =
  try_catch (locale_entry lang l message)
    (fun _ => default_entry lang message).
Proof.
  intros Hq Hl. unfold RevA.translate.
  by rewrite (RevA_handleLanguage_query req q l Hq Hl), bind_Ok.
Qed.

Lemma default_entry_object lang eng message :
  get_prop lang "eng" = Ok (VObj eng) ->
  default_entry lang message = Ok (member KObject (eng !! message) message).
Proof. intros Heng. unfold default_entry. by rewrite Heng. Qed.

Lemma fallback_contract translate lang l req message :
  translate req message =
    try_catch (locale_entry lang l message)
      (fun _ => default_entry lang message) ->
  translate_contract translate lang l req message.
Proof.
  intros Htr. unfold translate_contract. rewrite Htr.
  split; [|split; [|split]].
  - by intros e ->.
  - intros locale Hloc Hun. unfold locale_entry. by rewrite Hloc, bind_Ok, Hun.
  - intros locale entries Hloc Hent. unfold locale_entry.
    rewrite Hloc, bind_Ok, Hent, bind_Ok. simpl. unfold member.
    by destruct (entries !! message).
  - intros eng Heng. rewrite (default_entry_object lang eng message Heng).
    destruct (locale_entry lang l message); simpl; tauto.
Qed.

(** In revision A, [translate] contains every throw of the lookup, for
    every request, as long as the table has an object under [eng]. *)
Lemma RevA_translate_total lang eng req message :
  get_prop lang "eng" = Ok (VObj eng) ->
  ~ raises (RevA.translate lang req message).
Proof.
  intros Heng. unfold RevA.translate.
  fold (default_entry lang message).
  rewrite (default_entry_object lang eng message Heng).
  match goal with |- ~ raises (try_catch ?b _) => destruct b end; simpl; tauto.
Qed.

(** C1 (amended).  For a request that carries a query object, in both
    revisions: when the read of the table under the requested locale
    answers [undefined], or the lookup throws for another reason,
    [translate] returns the default-locale entry [lang.eng[key]]; when the
    table has an object under the requested locale, [translate] returns
    what that object answers for the key, that is its own entry, else the
    member it inherits under that name, else [undefined] (no fallback for
    a missing key); and when the table has an object under [eng],
    [translate] does not raise. *)
Theorem translate_fallback lang req q l message :
  get_prop req "query" = Ok q -> get_prop q "lang" = Ok l ->
  translate_contract (RevA.translate lang) lang l req message /\
  translate_contract (RevB.translate lang) lang l req message.
Proof.
  intros Hq Hl. split; apply fallback_contract.
  - by apply RevA_translate_query with q.
  - by apply RevB_translate_query with q.
Qed.


End General.

Section Sample.
#[local] Existing Instance Node.node.

Lemma translate_fallback_witness :
  get_prop Samples.req_deu "query" = Ok (obj [("lang", VStr "deu")]) /\
  get_prop (obj [("lang", VStr "deu")]) "lang" = Ok (VStr "deu") /\
  translate_contract (RevA.translate Samples.sample_lang) Samples.sample_lang
    (VStr "deu") Samples.req_deu "not_found" /\
  translate_contract (RevB.translate Samples.sample_lang) Samples.sample_lang
    (VStr "deu") Samples.req_deu "not_found".
Proof.
  split; [reflexivity|]. split; [reflexivity|].
  apply (translate_fallback Samples.sample_lang Samples.req_deu
           (obj [("lang", VStr "deu")]) (VStr "deu") "not_found");
    reflexivity.
Defined.

(** C1 (as stated) fails: the French table of the sample has no entry for
    [forbidden], the request selects French, and [translate] returns
    [undefined] in both revisions although the default locale has the
    entry. *)
Lemma translate_missing_key_counterexample :
  (fra ← get_prop Samples.sample_lang "fra"; get_prop fra "forbidden")
    = Ok VUndefined /\
  default_entry Samples.sample_lang "forbidden" = Ok (VStr "Forbidden") /\
  RevB.translate Samples.sample_lang Samples.req_fra "forbidden"
    = Ok VUndefined /\
  RevA.translate Samples.sample_lang Samples.req_fra "forbidden"
    = Ok VUndefined /\
  RevB.translate Samples.sample_lang Samples.req_fra "forbidden"
    ≠ default_entry Samples.sample_lang "forbidden".
Proof. repeat split; try reflexivity. discriminate. Qed.



End Sample.

End TranslateFacts.
(* --------------------------------------------------------------------- *)
(** ** ResponseFormatter                                                  *)
(* --------------------------------------------------------------------- *)

Module FormatterFacts.

Lemma emitted_two res a b :
  emitted (emitted res [a]) [b] = emitted res [a; b].
Proof. unfold emitted. simpl. by rewrite <- app_assoc. Qed.

Lemma emit_emitted e res : emit e res = (Ok (), emitted res [e]).
Proof. reflexivity. Qed.

Lemma RevB_custom_emits statusCode success data message res :
  RevB.custom statusCode success data message res =
  (Ok (), emitted res [Status statusCode; Json (envelope success data message)]).
Proof.
  unfold RevB.custom, status, json, mbind, eff_mbind, eff_bind.
  by rewrite !emit_emitted, emitted_two.
Qed.

Section General.
Context `{platform}.

(** A formatter of revision B that translates [key] first and then goes
    through [custom]. *)
Lemma RevB_translated_custom lang req key statusCode success data res :
  (message ← lift (RevB.translate lang req key);
   RevB.custom statusCode success data message) res =
  match RevB.translate lang req key with
  | Ok message =>
      (Ok (),
       emitted res [Status statusCode; Json (envelope success data message)])
  | Throw e => (Throw e, res)
  end.
Proof.
  unfold mbind, eff_mbind, eff_bind, lift.
  destruct (RevB.translate lang req key); [|done].
  apply RevB_custom_emits.
Qed.

(** A formatter of revision A that sets the status, then translates
    [key], then sends a body built from the text. *)
Lemma RevA_status_translated_send lang req key code (body : value -> value) res :
  (status code ;;
   msg ← lift (RevA.translate lang req key);
   send (body msg)) res =
  match RevA.translate lang req key with
  | Ok msg => (Ok (), emitted res [Status code; Send (body msg)])
  | Throw e => (Throw e, emitted res [Status code])
  end.
Proof.
  unfold status, send, mbind, eff_mbind, eff_bind, lift.
  rewrite emit_emitted.
  destruct (RevA.translate lang req key); [|done].
  by rewrite emit_emitted, emitted_two.
Qed.

(** C3 (amended).  Whenever [translate] returns, in revision B [notFound]
    emits status 404 with the envelope [{success: true, data: {},
    message: translate(req, "not_found")}] and [success] emits status 201
    with the envelope [{success: false, data: null, message:
    translate(req, "successfull_operation")}], and in revision A
    [success] sends the body [{success: true, msg: translate(req,
    "successfull_operation")}], which has no [data] and no [message].
    When [translate] throws, so does the formatter, and revision B has
    written nothing. *)
Theorem notFound_success_emissions lang req res :
  RevB.notFound lang req res =
    match RevB.translate lang req "not_found" with
    | Ok message =>
        (Ok (),
         emitted res [Status (VNum 404);
                      Json (envelope (VBool true) (obj []) message)])
    | Throw e => (Throw e, res)
    end /\
  RevB.success lang req res =
    match RevB.translate lang req "successfull_operation" with
    | Ok message =>
        (Ok (),
         emitted res [Status (VNum 201);
                      Json (envelope (VBool false) VNull message)])
    | Throw e => (Throw e, res)
    end /\
  match RevA.translate lang req "successfull_operation" with
  | Ok msg =>
      exists code,
        RevA.success lang req res =
        (Ok (),
         emitted res [Status code;
                      Send (obj [("success", VBool true); ("msg", msg)])])
  | Throw e => fst (RevA.success lang req res) = Throw e
  end.
Proof.
  split; [apply RevB_translated_custom|].
  split; [apply RevB_translated_custom|].
  unfold RevA.success.
  rewrite (RevA_status_translated_send lang req "successfull_operation"
             (VNum 200)
             (fun msg => obj [("success", VBool true); ("msg", msg)]) res).
  destruct (RevA.translate lang req "successfull_operation"); [|done].
  by exists (VNum 200).
Qed.

(** C6 (amended).  Whenever [translate] returns, [badResquest] emits
    status 400 in both revisions, with the envelope [{success: false,
    data: null, message: translate(req, "missing_parameters")}] in
    revision B and with the body [{errors: [{msg: translate(req,
    "missing_parameters"), location: "params"}]}] in revision A.  When
    [translate] throws, so does [badResquest]; revision B has then
    written nothing and revision A the status only. *)
Theorem badResquest_emissions lang req res :
  RevB.badResquest lang req res =
    match RevB.translate lang req "missing_parameters" with
    | Ok message =>
        (Ok (),
         emitted res [Status (VNum 400);
                      Json (envelope (VBool false) VNull message)])
    | Throw e => (Throw e, res)
    end /\
  RevA.badResquest lang req res =
    match RevA.translate lang req "missing_parameters" with
    | Ok msg =>
        (Ok (),
         emitted res [Status (VNum 400);
                      Send (RevA.errors_body msg "params")])
    | Throw e => (Throw e, emitted res [Status (VNum 400)])
    end.
Proof.
  split; [apply RevB_translated_custom|].
  apply (RevA_status_translated_send lang req "missing_parameters"
           (VNum 400) (fun msg => RevA.errors_body msg "params") res).
Qed.

(** [translate] of revision B reads nothing of its request but
    [request.query]. *)
Lemma RevB_translate_reads_query lang req req' message :
  get_prop req "query" = get_prop req' "query" ->
  RevB.translate lang req message = RevB.translate lang req' message.
Proof.
  intros Hq. unfold RevB.translate, RevB.handleLanguage. by rewrite Hq.
Qed.

(** A response object on which the read of [query] answers [undefined]
    makes [unprocessable_content] of revision B throw once the status is
    set. *)
Lemma RevB_unprocessable_content_plain lang req res :
  get_prop (as_value res) "query" = Ok VUndefined ->
  RevB.unprocessable_content lang req res =
  (Throw TypeError, emitted res [Status (VNum 422)]).
Proof.
  intros Hq. unfold RevB.unprocessable_content, status, mbind, eff_mbind,
    eff_bind, get_state, lift.
  rewrite emit_emitted.
  change (as_value (emitted res [Status (VNum 422)])) with (as_value res).
  unfold RevB.translate, RevB.handleLanguage. by rewrite Hq.
Qed.

Lemma RevB_unprocessable_content_emits lang req res :
  RevB.unprocessable_content lang req res =
  match RevB.translate lang (as_value res) "422_error" with
  | Ok text => (Ok (), emitted res [Status (VNum 422); Send text])
  | Throw e => (Throw e, emitted res [Status (VNum 422)])
  end.
Proof.
  unfold RevB.unprocessable_content, status, send, mbind, eff_mbind,
    eff_bind, get_state, lift.
  rewrite emit_emitted.
  change (as_value (emitted res [Status (VNum 422)])) with (as_value res).
  destruct (RevB.translate lang (as_value res) "422_error"); [|done].
  by rewrite emit_emitted, emitted_two.
Qed.

(** C10.  In revision B, [unprocessable_content] sets the status 422 and
    then resolves the text from the response object: the body it sends
    is [translate(res, "422_error")], and when that throws the exception
    escapes with the status set and no body.  The request plays no part:
    any other request gives the same outcome.  Of the response object
    only the [query] property is read: responses that answer alike under
    [query] get the same text. *)
Theorem unprocessable_content_reads_response lang req res :
  RevB.unprocessable_content lang req res =
    match RevB.translate lang (as_value res) "422_error" with
    | Ok text => (Ok (), emitted res [Status (VNum 422); Send text])
    | Throw e => (Throw e, emitted res [Status (VNum 422)])
    end /\
  (forall req',
     RevB.unprocessable_content lang req' res
     = RevB.unprocessable_content lang req res) /\
  (forall res',
     get_prop (as_value res') "query" = get_prop (as_value res) "query" ->
     RevB.translate lang (as_value res') "422_error"
     = RevB.translate lang (as_value res) "422_error").
Proof.
  split; [apply RevB_unprocessable_content_emits|].
  split.
  - intros req'. by rewrite !RevB_unprocessable_content_emits.
  - intros res' Hq. by apply RevB_translate_reads_query.
Qed.

End General.

Section Sample.
#[local] Existing Instance Node.node.

(** C3 (as stated) fails on revision A: [success] answers a request with
    status 200 and the body [{success: true, msg: ...}], not with status
    201 and an envelope whose flag is false and whose data is null. *)
Lemma success_counterexample :
  RevA.success Samples.sample_lang Samples.req_eng Samples.plain_res =
    (Ok (),
     emitted Samples.plain_res
       [Status (VNum 200);
        Send (obj [("success", VBool true);
                   ("msg", VStr "Successful operation")])]) /\
  RevA.success Samples.sample_lang Samples.req_eng Samples.plain_res ≠
    (Ok (),
     emitted Samples.plain_res
       [Status (VNum 201);
        Json (envelope (VBool false) VNull (VStr "Successful operation"))]).
Proof. split; [reflexivity|discriminate]. Qed.

(** C6 (as stated) fails on revision A: the body of [badResquest] is an
    [errors] list, not an envelope with [success], [data] and
    [message]. *)
Lemma badResquest_counterexample :
  RevA.badResquest Samples.sample_lang Samples.req_eng Samples.plain_res =
    (Ok (),
     emitted Samples.plain_res
       [Status (VNum 400);
        Send (obj [("errors",
                    VArr [obj [("msg", VStr "Missing parameters");
                               ("location", VStr "params")]])])]) /\
  RevA.badResquest Samples.sample_lang Samples.req_eng Samples.plain_res ≠
    (Ok (),
     emitted Samples.plain_res
       [Status (VNum 400);
        Json (envelope (VBool false) VNull (VStr "Missing parameters"))]).
Proof. split; [reflexivity|discriminate]. Qed.

(** With a French [query] on the response object the body is French,
    although the request selects English; with an ordinary response
    object the call throws. *)
Lemma unprocessable_content_reads_response_witness :
  RevB.unprocessable_content Samples.sample_lang Samples.req_eng
    Samples.res_fra
  = (Ok (),
     emitted Samples.res_fra
       [Status (VNum 422); Send (VStr "Contenu non traitable")]) /\
  RevB.unprocessable_content Samples.sample_lang Samples.req_eng
    Samples.plain_res
  = (Throw TypeError, emitted Samples.plain_res [Status (VNum 422)]).
Proof.
  split.
  - exact (proj1 (unprocessable_content_reads_response Samples.sample_lang
                    Samples.req_eng Samples.res_fra)).
  - exact (proj1 (unprocessable_content_reads_response Samples.sample_lang
                    Samples.req_eng Samples.plain_res)).
Defined.

(** C5 (evaluation at the failing inputs).  In revision B, an ordinary
    response object makes [unprocessable_content] throw after the status
    is set and before any body is sent, whatever the request; and a
    request without a query object makes [handleLanguage] and
    [translate] throw. *)
Theorem exceptions_escape :
  RevB.unprocessable_content Samples.sample_lang Samples.req_fra
    Samples.plain_res
    = (Throw TypeError, emitted Samples.plain_res [Status (VNum 422)]) /\
  RevB.handleLanguage Samples.req_no_query = Throw TypeError /\
  RevB.translate Samples.sample_lang Samples.req_no_query "forbidden"
    = Throw TypeError.
Proof. repeat split; reflexivity. Qed.

End Sample.

End FormatterFacts.
(* --------------------------------------------------------------------- *)
(** ** Notifier                                                           *)
(* --------------------------------------------------------------------- *)

Module NotifierFacts.

Local Open Scope list_scope.

Lemma custom_notify_off h hook content w :
  notifications_enabled h = false ->
  custom_notify h hook content w = (Ok VUndefined, w).
Proof.
  unfold notifications_enabled, custom_notify. by intros ->.
Qed.

Lemma custom_notify_on h hook content w :
  notifications_enabled h = true ->
  custom_notify h hook content w =
  (Ok VUndefined,
   {| now := now w;
      posts := posts w ++ [{| post_url := hook; post_body := content |}];
      in_flight := in_flight w ++ [length (posts w)] |}).
Proof.
  unfold notifications_enabled, custom_notify. by intros ->.
Qed.

(** [custom_notify] never throws. *)
Lemma custom_notify_Ok h hook content w :
  fst (custom_notify h hook content w) = Ok VUndefined.
Proof.
  unfold custom_notify. by destruct (strict_eq_str _ _).
Qed.

Lemma on_rejected_off h err w :
  notifications_enabled h = false -> snd (on_rejected h err w) = w.
Proof.
  intros Hoff. unfold on_rejected, error_notification, mbind, eff_mbind,
    eff_bind, get_state.
  by rewrite custom_notify_off.
Qed.

Lemma settle_off h w :
  notifications_enabled h = false -> posts (settle h w) = posts w.
Proof.
  intros Hoff. unfold settle.
  destruct (next_settled h (in_flight w)) as [[k rest]|]; [|done].
  destruct (transport h k); try done.
  by rewrite on_rejected_off.
Qed.

Lemma run_off h n : forall w,
  notifications_enabled h = false -> posts (run h n w) = posts w.
Proof.
  induction n as [|n IH]; intros w Hoff; simpl; [done|].
  rewrite IH by done. by apply settle_off.
Qed.

(** C8.  When [ALLOW_NOTIF] is not the string ["true"], [custom_notify]
    hands nothing to the transport, whatever the hook and the payload:
    it returns with the world as it found it, and no turn of the event
    loop adds a POST afterwards. *)
Theorem custom_notify_disabled h hook content w :
  strict_eq_str (ALLOW_NOTIF (env h)) "true" = false ->
  custom_notify h hook content w = (Ok VUndefined, w) /\
  forall turns,
    posts (run h turns (snd (custom_notify h hook content w))) = posts w.
Proof.
  intros Hoff. rewrite custom_notify_off by exact Hoff.
  split; [done|]. intros turns. by apply run_off.
Qed.

Lemma custom_notify_disabled_witness :
  custom_notify Samples.host_off Samples.hook Samples.payload Samples.idle
    = (Ok VUndefined, Samples.idle) /\
  forall turns,
    posts (run Samples.host_off turns
             (snd (custom_notify Samples.host_off Samples.hook
                     Samples.payload Samples.idle)))
    = posts Samples.idle.
Proof.
  apply (custom_notify_disabled Samples.host_off Samples.hook
           Samples.payload Samples.idle).
  reflexivity.
Defined.

Lemma settle_rejected h w before p err :
  notifications_enabled h = true ->
  posts w = before ++ [p] -> in_flight w = [length before] ->
  transport h (length before) = Rejected err ->
  settle h w =
  {| now := S (now w);
     posts := posts w ++
       [{| post_url := ERROR_HOOK (env h);
           post_body :=
             blocks (date_time h (S (now w)))
               ("*error while sending notification* " ++ nl ++ err) |}];
     in_flight := [length (posts w)] |}.
Proof.
  intros Hon Hp Hf Ht. unfold settle. rewrite Hf. simpl. rewrite Ht.
  cbv beta iota. rewrite Ht.
  unfold on_rejected, error_notification, mbind, eff_mbind, eff_bind,
    get_state.
  by rewrite custom_notify_on.
Qed.

Lemma settle_not_rejected h w before p :
  posts w = before ++ [p] -> in_flight w = [length before] ->
  (forall err, transport h (length before) ≠ Rejected err) ->
  posts (settle h w) = posts w /\
  (in_flight (settle h w) = [] \/ settle h w = w).
Proof.
  intros Hp Hf Ht. unfold settle. rewrite Hf. simpl.
  destruct (transport h (length before)) eqn:E.
  - rewrite E. simpl. auto.
  - by destruct (Ht err).
  - auto.
Qed.

Lemma settle_quiet h w : in_flight w = [] -> settle h w = w.
Proof. intros H. unfold settle. by rewrite H. Qed.

Lemma run_quiet h n : forall w, in_flight w = [] -> run h n w = w.
Proof.
  induction n as [|n IH]; intros w H; simpl; [done|].
  rewrite settle_quiet by done. by apply IH.
Qed.

Lemma run_fixed h n : forall w, settle h w = w -> run h n w = w.
Proof.
  induction n as [|n IH]; intros w H; simpl; [done|].
  rewrite H. by apply IH.
Qed.

Lemma run_plus h n m w : run h (n + m) w = run h m (run h n w).
Proof. revert w. induction n as [|n IH]; intros w; simpl; [done|apply IH]. Qed.

(** After [n] rejections in a row, a chain has made [n] further POSTs,
    all to the error hook, and the last of them is in flight. *)
Lemma run_rejections h n : forall w before p,
  notifications_enabled h = true ->
  posts w = before ++ [p] -> in_flight w = [length before] ->
  (forall i, i < n -> exists err, transport h (length before + i) = Rejected err) ->
  exists secondary,
    posts (run h n w) = posts w ++ secondary /\
    length secondary = n /\
    Forall (fun q => post_url q = ERROR_HOOK (env h)) secondary /\
    in_flight (run h n w) = [length before + n].
Proof.
  induction n as [|n IH]; intros w before p Hon Hp Hf Hrej; simpl.
  - exists []. rewrite app_nil_r, Nat.add_0_r. by repeat split.
  - destruct (Hrej 0) as [err Herr]; [lia|]. rewrite Nat.add_0_r in Herr.
    rewrite (settle_rejected h w before p err Hon Hp Hf Herr).
    set (p' := {| post_url := ERROR_HOOK (env h); post_body := _ |}).
    set (w' := {| now := _; posts := _; in_flight := _ |}).
    destruct (IH w' (posts w) p' Hon eq_refl eq_refl) as (sec & Hs & Hl & Hu & Hi).
    { intros i Hi. destruct (Hrej (S i)) as [e He]; [lia|].
      exists e. rewrite Hp, length_app. simpl.
      by replace (length before + 1 + i) with (length before + S i) by lia. }
    exists (p' :: sec). repeat split.
    + rewrite Hs. simpl. by rewrite <- app_assoc.
    + simpl. by rewrite Hl.
    + by constructor.
    + rewrite Hi, Hp, length_app. simpl. f_equal. lia.
Qed.

(** C2 (amended).  With notifications enabled and nothing else in flight,
    [custom_notify] returns without raising; every POST that the
    transport rejects is followed by exactly one further POST, to the
    error hook, so that [n] rejections in a row leave exactly [n]
    error-notification attempts behind the original POST; and when a POST
    of the chain is not rejected, no turn of the event loop adds another
    one. *)
Theorem custom_notify_attempts h hook content w n :
  strict_eq_str (ALLOW_NOTIF (env h)) "true" = true ->
  in_flight w = [] ->
  (forall i, i < n ->
     exists err, transport h (length (posts w) + i) = Rejected err) ->
  fst (custom_notify h hook content w) = Ok VUndefined /\
  (exists secondary,
     posts (run h n (snd (custom_notify h hook content w)))
       = posts w ++ {| post_url := hook; post_body := content |} :: secondary /\
     length secondary = n /\
     Forall (fun q => post_url q = ERROR_HOOK (env h)) secondary) /\
  ((forall err, transport h (length (posts w) + n) ≠ Rejected err) ->
   forall turns,
     posts (run h (n + turns) (snd (custom_notify h hook content w)))
     = posts (run h n (snd (custom_notify h hook content w)))).
Proof.
  intros Hon Hquiet Hrej.
  split; [apply custom_notify_Ok|].
  rewrite (custom_notify_on h hook content w Hon). simpl. rewrite Hquiet.
  set (p := {| post_url := hook; post_body := content |}).
  set (w1 := {| now := now w; posts := posts w ++ [p];
                in_flight := [] ++ [length (posts w)] |}).
  destruct (run_rejections h n w1 (posts w) p Hon eq_refl eq_refl Hrej)
    as (sec & Hs & Hl & Hu & Hi).
  split.
  - exists sec. split; [|done]. rewrite Hs. simpl. by rewrite <- app_assoc.
  - intros Hlast turns. rewrite run_plus.
    set (v := run h n w1) in *.
    destruct turns as [|turns]; [done|]. simpl.
    assert (Hv : exists before q, posts v = before ++ [q]
                                  /\ in_flight v = [length before]) .
    { destruct (decide (sec = [])) as [->|Hne].
      - exists (posts w), p. split; [by rewrite Hs, app_nil_r|].
        rewrite Hi. simpl in Hl. subst n. by rewrite Nat.add_0_r.
      - destruct (exists_last Hne) as (sec' & q & ->).
        exists (posts w ++ p :: sec'), q. split.
        + rewrite Hs. simpl. rewrite <- !app_assoc. done.
        + rewrite Hi. f_equal. rewrite length_app in Hl.
          rewrite length_app. simpl in *. lia. }
    destruct Hv as (before & q & Hpv & Hfv).
    assert (Hlen : length before = length (posts w) + n).
    { rewrite Hi in Hfv. by injection Hfv. }
    destruct (settle_not_rejected h v before q Hpv Hfv) as [Hposts Hend].
    { intros err. rewrite Hlen. apply Hlast. }
    destruct Hend as [Hend|Hend].
    + by rewrite run_quiet.
    + rewrite Hend. by rewrite run_fixed.
Qed.

Lemma custom_notify_attempts_witness :
  fst (custom_notify Samples.host_flaky Samples.hook Samples.payload
         Samples.idle) = Ok VUndefined /\
  (exists secondary,
     posts (run Samples.host_flaky 1
              (snd (custom_notify Samples.host_flaky Samples.hook
                      Samples.payload Samples.idle)))
       = posts Samples.idle
         ++ {| post_url := Samples.hook; post_body := Samples.payload |}
            :: secondary /\
     length secondary = 1 /\
     Forall (fun q => post_url q = ERROR_HOOK (env Samples.host_flaky))
       secondary) /\
  ((forall err,
      transport Samples.host_flaky (length (posts Samples.idle) + 1)
      ≠ Rejected err) ->
   forall turns,
     posts (run Samples.host_flaky (1 + turns)
              (snd (custom_notify Samples.host_flaky Samples.hook
                      Samples.payload Samples.idle)))
     = posts (run Samples.host_flaky 1
                (snd (custom_notify Samples.host_flaky Samples.hook
                        Samples.payload Samples.idle)))).
Proof.
  apply (custom_notify_attempts Samples.host_flaky Samples.hook
           Samples.payload Samples.idle 1).
  - reflexivity.
  - reflexivity.
  - intros i Hi. exists "Error: ECONNREFUSED".
    destruct i as [|i]; [reflexivity|lia].
Defined.

(** C2 (as stated) fails: when the transport rejects every POST, three
    turns of the event loop leave three error-notification attempts
    behind the original POST, not one; the failure of the secondary
    attempt is followed by another attempt. *)
Lemma custom_notify_cascade_counterexample :
  map post_url
    (posts (run Samples.host_down 3
              (snd (custom_notify Samples.host_down Samples.hook
                      Samples.payload Samples.idle))))
  = [Samples.hook; ERROR_HOOK Samples.env_on; ERROR_HOOK Samples.env_on;
     ERROR_HOOK Samples.env_on].
Proof. reflexivity. Qed.

Section General.
Context `{platform}.

(** [error_notification] never throws. *)
Lemma error_notification_Ok h content w :
  error_notification h content w
  = (Ok VUndefined, snd (error_notification h content w)).
Proof.
  pose proof (custom_notify_Ok h (ERROR_HOOK (env h)) content w) as Hok.
  unfold error_notification.
  destruct (custom_notify h (ERROR_HOOK (env h)) content w) as [r w1].
  simpl in *. by subst r.
Qed.

(** [error] of revision B, once the text of the notification is built. *)
Lemma RevB_error_built h err w res text :
  RevB.error_text h err = Ok text ->
  RevB.error h err (w, res) =
  (Ok (),
   (snd (error_notification h (blocks (date_time h (now w)) text) w),
    emitted res [Status (VNum 500);
                 Json (envelope (VBool false) VNull err)])).
Proof.
  intros Htext.
  unfold RevB.error, in_world, in_response, mbind, eff_mbind, eff_bind,
    get_state, lift. simpl. rewrite Htext.
  rewrite (error_notification_Ok h _ w). simpl.
  unfold emitted, envelope. simpl. by rewrite <- app_assoc.
Qed.

Lemma RevA_error_built h err w res text body :
  RevA.error_text h err = Ok text ->
  RevA.error_body err = Ok body ->
  RevA.error h err (w, res) =
  (Ok (),
   (snd (error_notification h (blocks (date_time h (now w)) text) w),
    emitted res [Status (VNum 500); Json body])).
Proof.
  intros Htext Hbody.
  unfold RevA.error, in_world, in_response, mbind, eff_mbind, eff_bind,
    get_state, lift. simpl. rewrite Htext.
  rewrite (error_notification_Ok h _ w). simpl. rewrite Hbody.
  unfold emitted. simpl. by rewrite <- app_assoc.
Qed.

(** When the text cannot be built, [error] throws before anything is
    posted or written. *)
Lemma RevB_error_unbuilt h err w res e :
  RevB.error_text h err = Throw e ->
  RevB.error h err (w, res) = (Throw e, (w, res)).
Proof.
  intros Htext.
  unfold RevB.error, in_world, in_response, mbind, eff_mbind, eff_bind,
    get_state, lift. simpl. by rewrite Htext.
Qed.

Lemma RevA_error_unbuilt h err w res e :
  RevA.error_text h err = Throw e ->
  RevA.error h err (w, res) = (Throw e, (w, res)).
Proof.
  intros Htext.
  unfold RevA.error, in_world, in_response, mbind, eff_mbind, eff_bind,
    get_state, lift. simpl. by rewrite Htext.
Qed.

(** C4 (amended).  For every response and every error value from which
    the text of the notification can be built (the template literal
    converts [process.env.NODE_ENV] and the error, in revision A the
    [code], [message], [cause] and [stack] of the error, without
    throwing; in revision A the four properties of the body can be read
    as well), [error] returns normally and emits status 500 and a JSON
    body, in revision B the envelope [{success: false, data: null,
    message: err}].  No outcome of the transport, be it a rejection or a
    POST that never settles, enters the result: two hosts that differ in
    their transport only give the same result. *)
Theorem error_emits_500 h err w res text :
  (RevB.error_text h err = Ok text ->
   RevB.error h err (w, res) =
   (Ok (),
    (snd (error_notification h (blocks (date_time h (now w)) text) w),
     emitted res [Status (VNum 500);
                  Json (envelope (VBool false) VNull err)]))) /\
  (forall body,
     RevA.error_text h err = Ok text ->
     RevA.error_body err = Ok body ->
     RevA.error h err (w, res) =
     (Ok (),
      (snd (error_notification h (blocks (date_time h (now w)) text) w),
       emitted res [Status (VNum 500); Json body]))) /\
  (forall transport',
     let h' := {| env := env h; transport := transport';
                  date_time := date_time h |} in
     RevB.error h' err (w, res) = RevB.error h err (w, res) /\
     RevA.error h' err (w, res) = RevA.error h err (w, res)).
Proof.
  split; [apply RevB_error_built|].
  split; [intros body; apply RevA_error_built|].
  by intros transport'.
Qed.

End General.

Section Sample.
#[local] Existing Instance Node.node.

Lemma error_emits_500_witness :
  RevB.error Samples.host_down Samples.boom (Samples.idle, Samples.plain_res)
  = (Ok (),
     (snd (error_notification Samples.host_down
             (blocks (date_time Samples.host_down (now Samples.idle))
                ("*ERREUR 500 - ENV production* " ++ nl ++ "Error: boom"))
             Samples.idle),
      emitted Samples.plain_res
        [Status (VNum 500);
         Json (envelope (VBool false) VNull Samples.boom)])).
Proof.
  apply (proj1 (error_emits_500 Samples.host_down Samples.boom Samples.idle
                  Samples.plain_res
                  ("*ERREUR 500 - ENV production* " ++ nl ++ "Error: boom"))).
  reflexivity.
Defined.

(** C4 (as stated) fails: an error whose [toString] is not a function
    cannot be converted by the template literal of the notification, so
    [error] throws before it posts or writes anything, and no 500 is
    emitted; in revision A the same happens when the [code] of the error
    is such a value. *)
Lemma error_unprintable_counterexample :
  to_string Samples.unprintable = Throw TypeError /\
  RevB.error Samples.host_down Samples.unprintable
    (Samples.idle, Samples.plain_res)
  = (Throw TypeError, (Samples.idle, Samples.plain_res)) /\
  RevA.error Samples.host_down (obj [("code", Samples.unprintable)])
    (Samples.idle, Samples.plain_res)
  = (Throw TypeError, (Samples.idle, Samples.plain_res)).
Proof. repeat split; reflexivity. Qed.

End Sample.

End NotifierFacts.
(* ===================================================================== *)
(** * Part III: further properties of the code                            *)
(* ===================================================================== *)

(* --------------------------------------------------------------------- *)
(** ** slugify: shape and content of the result                           *)
(* --------------------------------------------------------------------- *)

Module SlugExtra.
Import Slug SlugFacts.

Local Open Scope list_scope.

Section Stripped.

(** Stripping units that satisfy [p] leaves the units counted by [keep]
    alone, as long as no unit is both. *)
Variable p keep : N -> bool.
Hypothesis p_not_keep : forall c, p c = true -> keep c = false.

Lemma filter_strip_start s :
  filter (fun c => keep c = true) (strip_start p s)
  = filter (fun c => keep c = true) s.
Proof.
  induction s as [|c s IH]; simpl; [done|].
  destruct (p c) eqn:E; [|done].
  rewrite IH, filter_cons_False; [done|].
  by rewrite (p_not_keep c E).
Qed.

Lemma filter_strip_end s :
  filter (fun c => keep c = true) (strip_end p s)
  = filter (fun c => keep c = true) s.
Proof.
  induction s as [|c s IH]; simpl; [done|].
  destruct (strip_end p s) as [|r0 r].
  - destruct (p c) eqn:E.
    + rewrite filter_cons_False by (by rewrite (p_not_keep c E)).
      by rewrite <- IH.
    + rewrite !filter_cons. by rewrite <- IH.
  - rewrite (filter_cons _ c (r0 :: r)), (filter_cons _ c s). by rewrite IH.
Qed.

End Stripped.

Lemma space_not_alnum c :
  is_space c = true -> is_lower_alnum c || is_upper c = false.
Proof. intros. classes. Qed.

Lemma hyphen_not_alnum c :
  is_hyphen c = true -> is_lower_alnum c || is_upper c = false.
Proof. intros. classes. Qed.

Lemma sep_not_alnum c :
  is_sep c = true -> is_lower_alnum c || is_upper c = false.
Proof. intros. classes. Qed.

Lemma alnum_kept c :
  is_lower_alnum c || is_upper c = true -> is_kept c = true.
Proof. intros. classes. Qed.

Lemma filter_remove_unkept s :
  filter (fun c => is_lower_alnum c || is_upper c = true) (remove_unkept s)
  = filter (fun c => is_lower_alnum c || is_upper c = true) s.
Proof.
  unfold remove_unkept. induction s as [|c s IH]; [done|].
  destruct (is_kept c) eqn:E.
  - rewrite (filter_cons_True (fun c => is_kept c = true)) by done.
    rewrite !filter_cons. by rewrite IH.
  - rewrite (filter_cons_False (fun c => is_kept c = true)) by congruence.
    rewrite IH. rewrite filter_cons_False; [done|].
    intros H. apply alnum_kept in H. congruence.
Qed.

Lemma filter_collapse_runs s : forall b,
  filter (fun c => is_lower_alnum c || is_upper c = true) (collapse_runs b s)
  = filter (fun c => is_lower_alnum c || is_upper c = true) s.
Proof.
  induction s as [|c s IH]; intros b; simpl; [done|].
  destruct (is_sep c) eqn:E.
  - rewrite (filter_cons_False _ c s)
      by (by rewrite (sep_not_alnum c E)).
    destruct b; [apply IH|].
    rewrite filter_cons_False; [apply IH|].
    by rewrite (hyphen_not_alnum hyphen).
  - rewrite !filter_cons. by rewrite IH.
Qed.

Lemma slugify_filter_alnum toLowerCase s :
  filter (fun c => is_lower_alnum c || is_upper c = true)
    (slugify toLowerCase s)
  = filter (fun c => is_lower_alnum c || is_upper c = true) (toLowerCase s).
Proof.
  unfold slugify, strip_hyphens, trim.
  rewrite (filter_strip_end _ _ hyphen_not_alnum).
  rewrite (filter_strip_start _ _ hyphen_not_alnum).
  rewrite filter_collapse_runs, filter_remove_unkept.
  rewrite (filter_strip_end _ _ space_not_alnum).
  apply (filter_strip_start _ _ space_not_alnum).
Qed.

Lemma filter_nil_Forall (keep : N -> bool) (s : list N) :
  filter (fun c => keep c = true) s = [] <->
  Forall (fun c => keep c = false) s.
Proof.
  induction s as [|c s IH]; [by split; [constructor|]|].
  rewrite filter_cons. destruct (decide (keep c = true)) as [E|E].
  - split; [done|]. intros H. inversion H. congruence.
  - split.
    + intros H. constructor; [by destruct (keep c)|by apply IH].
    + intros H. inversion H. by apply IH.
Qed.

(** X3.  [slugify] neither drops nor reorders nor adds ASCII letters and
    digits: those of the result are exactly those of the lower-cased
    input, in the same order.  This holds for any [toLowerCase]. *)
Theorem slugify_keeps_letters_digits (toLowerCase : list N -> list N) s :
  filter (fun c => is_lower_alnum c || is_upper c = true)
    (slugify toLowerCase s)
  = filter (fun c => is_lower_alnum c || is_upper c = true) (toLowerCase s).
Proof. apply slugify_filter_alnum. Qed.

Section Shape.

Variable toLowerCase : list N -> list N.
Hypothesis toLowerCase_no_upper :
  forall s, Forall (fun c => is_upper c = false) (toLowerCase s).

(** X1.  Every result of [slugify] is made of lower-case ASCII letters,
    digits and hyphens only, has no two hyphens in a row and neither
    starts nor ends with a hyphen, provided [toLowerCase] produces no
    upper-case ASCII letter. *)
Theorem slugify_output_shape s :
  let r := slugify toLowerCase s in
  Forall (fun c => is_slug_unit c = true) r /\
  no_double_hyphen r /\
  head r ≠ Some hyphen /\
  last r ≠ Some hyphen.
Proof.
  destruct (slugify_slug toLowerCase toLowerCase_no_upper s)
    as [Hu Hn Hh Hl].
  by repeat split.
Qed.

(** X4.  The result of [slugify] is the empty string exactly when the
    lower-cased input holds no ASCII letter and no digit. *)
Theorem slugify_empty_iff s :
  slugify toLowerCase s = [] <->
  Forall (fun c => is_lower_alnum c = false) (toLowerCase s).
Proof.
  pose proof (slugify_filter_alnum toLowerCase s) as Hf.
  split.
  - intros Hnil. rewrite Hnil in Hf. symmetry in Hf.
    apply filter_nil_Forall in Hf.
    eapply Forall_impl; [exact Hf|]. intros c Hc.
    by apply orb_false_iff in Hc as [Hc _].
  - intros Hno.
    assert (Hall : Forall (fun c => is_lower_alnum c || is_upper c = false)
                     (toLowerCase s)).
    { pose proof (toLowerCase_no_upper s) as Hup.
      rewrite Forall_forall in *. intros c Hc.
      by rewrite (Hno c Hc), (Hup c Hc). }
    apply filter_nil_Forall in Hall. rewrite Hall in Hf.
    apply filter_nil_Forall in Hf.
    destruct (slugify_slug toLowerCase toLowerCase_no_upper s)
      as [Hu _ Hh _].
    destruct (slugify toLowerCase s) as [|c r]; [done|].
    inversion Hf as [|? ? Hc _]; subst.
    inversion Hu as [|? ? Hc' _]; subst.
    destruct Hh. simpl. f_equal. classes.
Qed.

End Shape.

Section Fixed.

Variable toLowerCase : list N -> list N.
Hypothesis toLowerCase_slug :
  forall s, Forall (fun c => is_slug_unit c = true) s -> toLowerCase s = s.

(** X2.  A string that is already a slug (lower-case ASCII letters, digits
    and single hyphens, no hyphen at either end) is returned unchanged,
    provided [toLowerCase] leaves such strings alone. *)
Theorem slugify_fixes_slugs s :
  Forall (fun c => is_slug_unit c = true) s ->
  no_double_hyphen s ->
  head s ≠ Some hyphen ->
  last s ≠ Some hyphen ->
  slugify toLowerCase s = s.
Proof.
  intros Hu Hn Hh Hl. apply (slug_fixed toLowerCase toLowerCase_slug).
  by split.
Qed.

End Fixed.

Lemma length_strip_start (p : N -> bool) s :
  length (strip_start p s) <= length s.
Proof.
  induction s as [|c s IH]; simpl; [done|].
  destruct (p c); simpl; lia.
Qed.

Lemma length_strip_end (p : N -> bool) s :
  length (strip_end p s) <= length s.
Proof.
  induction s as [|c s IH]; simpl; [done|].
  destruct (strip_end p s); [destruct (p c)|]; simpl in *; lia.
Qed.

Lemma length_collapse_runs s : forall b,
  length (collapse_runs b s) <= length s.
Proof.
  induction s as [|c s IH]; intros b; simpl; [done|].
  destruct (is_sep c); [destruct b|]; simpl;
    [pose proof (IH true) | pose proof (IH true) | pose proof (IH false)];
    lia.
Qed.

(** X5.  [slugify] never lengthens: its result has at most as many code
    units as the lower-cased input, for any [toLowerCase]. *)
Theorem slugify_length (toLowerCase : list N -> list N) s :
  length (slugify toLowerCase s) <= length (toLowerCase s).
Proof.
  unfold slugify, strip_hyphens, trim, remove_unkept.
  etrans; [apply length_strip_end|].
  etrans; [apply length_strip_start|].
  etrans; [apply length_collapse_runs|].
  etrans; [apply length_filter|].
  etrans; [apply length_strip_end|].
  apply length_strip_start.
Qed.

Lemma slugify_output_shape_witness :
  let r := slugify latin1_lower (units "  Hello, World!  ") in
  Forall (fun c => is_slug_unit c = true) r /\
  no_double_hyphen r /\
  head r ≠ Some hyphen /\
  last r ≠ Some hyphen.
Proof.
  exact (slugify_output_shape latin1_lower SlugSample.latin1_lower_no_upper
           (units "  Hello, World!  ")).
Defined.

Lemma slugify_empty_iff_witness :
  slugify latin1_lower (units " -_! ") = [] <->
  Forall (fun c => is_lower_alnum c = false) (latin1_lower (units " -_! ")).
Proof.
  exact (slugify_empty_iff latin1_lower SlugSample.latin1_lower_no_upper
           (units " -_! ")).
Defined.

Lemma slugify_fixes_slugs_witness :
  slugify latin1_lower (units "hello-world") = units "hello-world".
Proof.
  apply (slugify_fixes_slugs latin1_lower SlugSample.latin1_lower_slug
           (units "hello-world")).
  - repeat constructor.
  - simpl. repeat split; intros; discriminate.
  - discriminate.
  - discriminate.
Defined.

End SlugExtra.

(* --------------------------------------------------------------------- *)
(** ** Translator: locale resolution and the two revisions                *)
(* --------------------------------------------------------------------- *)

Module TranslateExtra.
Import TranslateFacts.

Section General.
Context `{platform}.

(** A property read throws exactly on [undefined], on [null] and on a
    built-in whose accessor throws. *)
Lemma get_prop_throws v k :
  get_prop v k = Throw TypeError <->
  v = VUndefined \/ v = VNull \/
  exists id, v = VBuiltin id /\ builtin_get id k = Throw TypeError.
Proof.
  split.
  - intros Hthrow. destruct v; auto; try discriminate.
    right. right. by exists id.
  - intros [-> | [-> | (id & -> & Hid)]]; done.
Qed.

Lemma get_prop_throws_dec v k :
  get_prop v k = Throw TypeError \/ exists x, get_prop v k = Ok x.
Proof. destruct (get_prop v k) as [x|[]]; eauto. Qed.

Lemma RevA_query_lang_read req q :
  get_prop req "query" = Ok q ->
  RevA.query_lang req = get_prop q "lang".
Proof.
  intros Hq. unfold RevA.query_lang.
  destruct req; try discriminate; by rewrite Hq, bind_Ok.
Qed.

Lemma RevA_query_lang_throws req :
  get_prop req "query" = Throw TypeError ->
  req ≠ VUndefined -> req ≠ VNull ->
  RevA.query_lang req = Throw TypeError.
Proof.
  intros Hq Hu Hn. unfold RevA.query_lang.
  destruct req; try done; by rewrite Hq.
Qed.

(** When [handleLanguage] of revision B returns, the request carries a
    query object. *)
Lemma RevB_handleLanguage_Ok req l :
  RevB.handleLanguage req = Ok l ->
  exists q l0, get_prop req "query" = Ok q /\ get_prop q "lang" = Ok l0.
Proof.
  unfold RevB.handleLanguage.
  destruct (get_prop req "query") as [q|e] eqn:Hq; [|done].
  rewrite bind_Ok.
  destruct (get_prop q "lang") as [l0|e] eqn:Hl; [|done].
  eauto.
Qed.

(** X6.  [handleLanguage] never answers with a falsy locale: whenever it
    returns, in either revision, the value is truthy (in particular it is
    never the empty string, [undefined] or [null]). *)
Theorem handleLanguage_truthy req :
  match RevB.handleLanguage req with
  | Ok l => truthy l = true
  | Throw _ => True
  end /\
  match RevA.handleLanguage req with
  | Ok l => truthy l = true
  | Throw _ => True
  end.
Proof.
  split.
  - unfold RevB.handleLanguage.
    destruct (get_prop req "query") as [q|e]; [|done]. rewrite bind_Ok.
    destruct (get_prop q "lang") as [l|e] eqn:Hl; [|done]. rewrite bind_Ok.
    destruct (truthy l) eqn:Ht; [|done]. by rewrite bind_Ok, Hl.
  - unfold RevA.handleLanguage.
    destruct (RevA.query_lang req) as [l|e] eqn:Hl; [|done]. rewrite bind_Ok.
    by destruct (truthy l) eqn:Ht; simpl.
Qed.

(** X7.  [handleLanguage] throws exactly on the requests it cannot read:
    in revision B when the request is [undefined] or [null] or its
    [query] is [undefined] or [null]; in revision A only when the request
    is an actual value whose [query] is [undefined] or [null], a nullish
    request being answered with ["eng"].  The only other throw, in both
    revisions, is that of an accessor of the platform, when the request
    or its [query] is a built-in whose [query] or [lang] accessor
    throws. *)
Theorem handleLanguage_throws req :
  (RevB.handleLanguage req = Throw TypeError <->
   req = VUndefined \/ req = VNull \/
   get_prop req "query" = Ok VUndefined \/ get_prop req "query" = Ok VNull \/
   (exists id,
      req = VBuiltin id /\ builtin_get id "query" = Throw TypeError) \/
   (exists id,
      get_prop req "query" = Ok (VBuiltin id) /\
      builtin_get id "lang" = Throw TypeError)) /\
  (RevA.handleLanguage req = Throw TypeError <->
   get_prop req "query" = Ok VUndefined \/ get_prop req "query" = Ok VNull \/
   (exists id,
      req = VBuiltin id /\ builtin_get id "query" = Throw TypeError) \/
   (exists id,
      get_prop req "query" = Ok (VBuiltin id) /\
      builtin_get id "lang" = Throw TypeError)) /\
  (req = VUndefined \/ req = VNull ->
   RevA.handleLanguage req = Ok (VStr "eng")).
Proof.
  split; [|split].
  - unfold RevB.handleLanguage. split.
    + intros Hthrow. destruct (get_prop req "query") as [q|[]] eqn:Hq.
      * rewrite bind_Ok in Hthrow.
        destruct (get_prop q "lang") as [l|[]] eqn:Hl.
        -- rewrite bind_Ok in Hthrow.
           destruct (truthy l); [by rewrite bind_Ok, Hl in Hthrow|done].
        -- apply get_prop_throws in Hl as [-> | [-> | (id & -> & Hid)]];
             [auto | auto |].
           do 5 right. by exists id.
      * apply get_prop_throws in Hq as [-> | [-> | (id & -> & Hid)]];
          [auto | auto |].
        do 4 right. left. by exists id.
    + intros [-> | [-> | [Hq | [Hq | [(id & -> & Hid) | (id & Hq & Hid)]]]]];
        try done.
      * by rewrite Hq.
      * by rewrite Hq.
      * simpl. by rewrite Hid.
      * rewrite Hq, bind_Ok. simpl. by rewrite Hid.
  - unfold RevA.handleLanguage. split.
    + intros Hthrow.
      destruct (get_prop_throws_dec req "query") as [Hreq | [q Hq]].
      * apply get_prop_throws in Hreq as [-> | [-> | (id & -> & Hid)]];
          [discriminate | discriminate |].
        right. right. left. by exists id.
      * rewrite (RevA_query_lang_read req q Hq) in Hthrow.
        destruct (get_prop q "lang") as [l|[]] eqn:Hl.
        -- rewrite bind_Ok in Hthrow. by destruct (truthy l).
        -- rewrite Hq.
           apply get_prop_throws in Hl as [-> | [-> | (id & -> & Hid)]];
             [auto | auto |].
           do 3 right. by exists id.
    + intros [Hq | [Hq | [(id & -> & Hid) | (id & Hq & Hid)]]].
      * by rewrite (RevA_query_lang_read req _ Hq).
      * by rewrite (RevA_query_lang_read req _ Hq).
      * unfold RevA.query_lang. simpl. by rewrite Hid.
      * rewrite (RevA_query_lang_read req _ Hq). simpl. by rewrite Hid.
  - by intros [-> | ->].
Qed.

(** X8.  Revision A extends revision B: on every request for which
    [handleLanguage] of revision B returns, the two [translate] give the
    same result for every table and key. *)
Theorem translate_revisions_agree lang req message l :
  RevB.handleLanguage req = Ok l ->
  RevA.translate lang req message = RevB.translate lang req message.
Proof.
  intros Hret. apply RevB_handleLanguage_Ok in Hret as (q & l0 & Hq & Hl).
  by rewrite (RevA_translate_query lang req q l0 message Hq Hl),
    (RevB_translate_query lang req q l0 message Hq Hl).
Qed.

(** X9.  In revision A, [translate] returns for every request, even one
    that is [undefined] or has no query object, as soon as the table has
    an object under [eng]: every throw of the lookup is caught and
    answered from the default locale. *)
Theorem RevA_translate_returns lang eng req message :
  get_prop lang "eng" = Ok (VObj eng) ->
  exists v, RevA.translate lang req message = Ok v.
Proof.
  intros Heng.
  pose proof (RevA_translate_total lang eng req message Heng) as Hno.
  destruct (RevA.translate lang req message) as [v|e]; [eauto|].
  by destruct Hno.
Qed.

(** X10.  The [catch] of [translate] is not guarded: for a request with a
    query object, when the reads of the table under the requested locale
    and under [eng] both answer [undefined], [translate] throws a
    [TypeError] in both revisions. *)
Theorem translate_without_default_throws lang req q l locale message :
  get_prop req "query" = Ok q -> get_prop q "lang" = Ok l ->
  requested_locale l = Ok locale ->
  get_prop lang locale = Ok VUndefined ->
  get_prop lang "eng" = Ok VUndefined ->
  RevA.translate lang req message = Throw TypeError /\
  RevB.translate lang req message = Throw TypeError.
Proof.
  intros Hq Hl Hloc Hun Heng.
  rewrite (RevA_translate_query lang req q l message Hq Hl),
    (RevB_translate_query lang req q l message Hq Hl).
  unfold locale_entry, default_entry. by rewrite Hloc, bind_Ok, Hun, Heng.
Qed.

End General.

Section Sample.
#[local] Existing Instance Node.node.

Lemma handleLanguage_throws_witness :
  RevA.handleLanguage VUndefined = Ok (VStr "eng") /\
  RevB.handleLanguage VUndefined = Throw TypeError /\
  RevA.handleLanguage Samples.req_no_query = Throw TypeError.
Proof.
  pose proof (handleLanguage_throws VUndefined) as (HB & _ & HA).
  pose proof (handleLanguage_throws Samples.req_no_query) as (_ & HA' & _).
  split; [apply HA; by left|].
  split; [apply HB; by left|].
  apply HA'. by left.
Defined.

Lemma translate_revisions_agree_witness :
  RevA.translate Samples.sample_lang Samples.req_fra "not_found"
  = RevB.translate Samples.sample_lang Samples.req_fra "not_found".
Proof.
  apply (translate_revisions_agree Samples.sample_lang Samples.req_fra
           "not_found" (VStr "fra")).
  reflexivity.
Defined.

Lemma RevA_translate_returns_witness :
  exists v,
    RevA.translate Samples.sample_lang Samples.req_no_query "forbidden"
    = Ok v.
Proof.
  apply (RevA_translate_returns Samples.sample_lang
           (list_to_map
              [("missing_parameters", VStr "Missing parameters");
               ("not_found", VStr "Not found");
               ("successfull_operation", VStr "Successful operation");
               ("forbidden", VStr "Forbidden");
               ("422_error", VStr "Unprocessable content")])).
  reflexivity.
Defined.

Lemma translate_without_default_throws_witness :
  RevA.translate (obj [("fra", obj [("not_found", VStr "Introuvable")])])
    Samples.req_deu "not_found" = Throw TypeError /\
  RevB.translate (obj [("fra", obj [("not_found", VStr "Introuvable")])])
    Samples.req_deu "not_found" = Throw TypeError.
Proof.
  apply (translate_without_default_throws
           (obj [("fra", obj [("not_found", VStr "Introuvable")])])
           Samples.req_deu (obj [("lang", VStr "deu")]) (VStr "deu") "deu"
           "not_found"); reflexivity.
Defined.

End Sample.

End TranslateExtra.
(* --------------------------------------------------------------------- *)
(** ** ResponseFormatter: the other operations                            *)
(* --------------------------------------------------------------------- *)

Module FormatterExtra.
Import FormatterFacts.

Lemma custom_data_emits code data res :
  RevB._custom code data res =
    (Ok (),
     emitted res [Status (if truthy code then code else VNum 200);
                  Json (obj [("data", data)])]) /\
  RevA._custom code data res = RevB._custom code data res.
Proof.
  split; [|done].
  unfold RevB._custom, status, json, mbind, eff_mbind, eff_bind.
  by rewrite !emit_emitted, emitted_two.
Qed.

(** X13.  [_custom] answers with [{data}] under the given status, and
    under 200 when the status is falsy ([undefined], [null], [0], the
    empty string, [false]); [_success] always answers 201.  Both
    revisions behave alike. *)
Theorem custom_data_default_status code data res :
  (truthy code = false ->
   RevB._custom code data res =
     (Ok (), emitted res [Status (VNum 200); Json (obj [("data", data)])])) /\
  (truthy code = true ->
   RevB._custom code data res =
     (Ok (), emitted res [Status code; Json (obj [("data", data)])])) /\
  RevB._success data res =
    (Ok (), emitted res [Status (VNum 201); Json (obj [("data", data)])]) /\
  RevA._custom code data res = RevB._custom code data res /\
  RevA._success data res = RevB._success data res.
Proof.
  destruct (custom_data_emits code data res) as [HB HA].
  split; [by intros Ht; rewrite HB, Ht|].
  split; [by intros Ht; rewrite HB, Ht|].
  split; [apply (custom_data_emits (VNum 201) data res)|].
  by split.
Qed.

Lemma custom_data_default_status_witness :
  RevB._custom VUndefined (VStr "row") Samples.plain_res =
    (Ok (),
     emitted Samples.plain_res
       [Status (VNum 200); Json (obj [("data", VStr "row")])]) /\
  RevB._custom (VNum 202) (VStr "row") Samples.plain_res =
    (Ok (),
     emitted Samples.plain_res
       [Status (VNum 202); Json (obj [("data", VStr "row")])]).
Proof.
  split.
  - exact (proj1 (custom_data_default_status VUndefined (VStr "row")
                    Samples.plain_res) eq_refl).
  - exact (proj1 (proj2 (custom_data_default_status (VNum 202) (VStr "row")
                           Samples.plain_res)) eq_refl).
Defined.

(** X14.  [handleValidationErrors] answers 400 with the raw list of
    validation errors and never runs the rest of the chain when the list
    is not empty (as the [message] of the envelope in revision B, as the
    [errors] of the body in revision A); with an empty list it only runs
    the rest of the chain. *)
Theorem handleValidationErrors_gate e errors next res :
  RevB.handleValidationErrors (e :: errors) next res =
    (Ok (),
     emitted res [Status (VNum 400);
                  Json (envelope (VBool false) VNull (VArr (e :: errors)))]) /\
  RevA.handleValidationErrors (e :: errors) next res =
    (Ok (),
     emitted res [Status (VNum 400);
                  Json (obj [("errors", VArr (e :: errors))])]) /\
  RevB.handleValidationErrors [] next res = next res /\
  RevA.handleValidationErrors [] next res = next res.
Proof.
  split; [apply RevB_custom_emits|]. split; [|done].
  unfold RevA.handleValidationErrors, RevA.badResquestWithMsg, status, json,
    mbind, eff_mbind, eff_bind.
  by rewrite !emit_emitted, emitted_two.
Qed.

Section General.
Context `{platform}.

(** X11.  In revision B, [conflict], [forbidden] and [unauthorized] answer
    409, 403 and 401 with the envelope [{success: false, data: null,
    message}] around the translated text, and write nothing at all when
    [translate] throws: the text is computed before the response is
    touched. *)
Theorem RevB_translated_formatters lang req res :
  RevB.conflict lang req res =
    match RevB.translate lang req "already_exist" with
    | Ok message =>
        (Ok (),
         emitted res [Status (VNum 409);
                      Json (envelope (VBool false) VNull message)])
    | Throw e => (Throw e, res)
    end /\
  RevB.forbidden lang req res =
    match RevB.translate lang req "forbidden" with
    | Ok message =>
        (Ok (),
         emitted res [Status (VNum 403);
                      Json (envelope (VBool false) VNull message)])
    | Throw e => (Throw e, res)
    end /\
  RevB.unauthorized lang req res =
    match RevB.translate lang req "unauthorized" with
    | Ok message =>
        (Ok (),
         emitted res [Status (VNum 401);
                      Json (envelope (VBool false) VNull message)])
    | Throw e => (Throw e, res)
    end.
Proof. repeat split; apply RevB_translated_custom. Qed.

(** X12.  In revision A, [conflict] and [notFound] answer 409 and 404 with
    an [errors] list located in ["body"] and ["params"], while
    [forbidden], [unauthorized] and [unprocessable_content] answer 403,
    401 and 422 with the translated text itself as the body; each sets
    the status before it translates, so a throw of [translate] leaves the
    status set and no body. *)
Theorem RevA_translated_formatters lang req res :
  RevA.conflict lang req res =
    match RevA.translate lang req "already_exist" with
    | Ok msg =>
        (Ok (),
         emitted res [Status (VNum 409); Send (RevA.errors_body msg "body")])
    | Throw e => (Throw e, emitted res [Status (VNum 409)])
    end /\
  RevA.notFound lang req res =
    match RevA.translate lang req "not_found" with
    | Ok msg =>
        (Ok (),
         emitted res [Status (VNum 404);
                      Send (RevA.errors_body msg "params")])
    | Throw e => (Throw e, emitted res [Status (VNum 404)])
    end /\
  RevA.forbidden lang req res =
    match RevA.translate lang req "forbidden" with
    | Ok text => (Ok (), emitted res [Status (VNum 403); Send text])
    | Throw e => (Throw e, emitted res [Status (VNum 403)])
    end /\
  RevA.unauthorized lang req res =
    match RevA.translate lang req "unauthorized" with
    | Ok text => (Ok (), emitted res [Status (VNum 401); Send text])
    | Throw e => (Throw e, emitted res [Status (VNum 401)])
    end /\
  RevA.unprocessable_content lang req res =
    match RevA.translate lang req "422_error" with
    | Ok text => (Ok (), emitted res [Status (VNum 422); Send text])
    | Throw e => (Throw e, emitted res [Status (VNum 422)])
    end.
Proof.
  split; [apply (RevA_status_translated_send lang req "already_exist"
                   (VNum 409) (fun msg => RevA.errors_body msg "body"))|].
  split; [apply (RevA_status_translated_send lang req "not_found"
                   (VNum 404) (fun msg => RevA.errors_body msg "params"))|].
  split; [apply (RevA_status_translated_send lang req "forbidden"
                   (VNum 403) (fun text => text))|].
  split; [apply (RevA_status_translated_send lang req "unauthorized"
                   (VNum 401) (fun text => text))|].
  apply (RevA_status_translated_send lang req "422_error"
           (VNum 422) (fun text => text)).
Qed.




End General.

Section Sample.
#[local] Existing Instance Node.node.


End Sample.

End FormatterExtra.
(* --------------------------------------------------------------------- *)
(** ** Notifier: gates, destinations and payloads                         *)
(* --------------------------------------------------------------------- *)

Module NotifierExtra.
Import NotifierFacts.

Local Open Scope list_scope.

(** X16.  [log_notification] hands a POST to the transport only when both
    [ALLOW_LOG_NOTIF] and [ALLOW_NOTIF] are the string ["true"]; the POST
    then goes to [LOG_HOOK] with the content unchanged.  In every other
    case nothing is handed over.  It never raises. *)
Theorem log_notification_gate h content w :
  log_notification h content w =
  (Ok VUndefined,
   if strict_eq_str (ALLOW_LOG_NOTIF (env h)) "true"
      && strict_eq_str (ALLOW_NOTIF (env h)) "true"
   then {| now := now w;
           posts := posts w ++ [{| post_url := LOG_HOOK (env h);
                                   post_body := content |}];
           in_flight := in_flight w ++ [length (posts w)] |}
   else w).
Proof.
  unfold log_notification.
  destruct (strict_eq_str (ALLOW_LOG_NOTIF (env h)) "true"); [|done].
  destruct (strict_eq_str (ALLOW_NOTIF (env h)) "true") eqn:Hon.
  - by rewrite custom_notify_on.
  - by rewrite custom_notify_off.
Qed.

Lemma error_notification_posts h content w :
  posts (snd (error_notification h content w)) =
  posts w ++
  (if notifications_enabled h
   then [{| post_url := ERROR_HOOK (env h); post_body := content |}]
   else []).
Proof.
  unfold error_notification.
  destruct (notifications_enabled h) eqn:Hon.
  - by rewrite custom_notify_on.
  - rewrite custom_notify_off by done. by rewrite app_nil_r.
Qed.

Section General.
Context `{platform}.

(** X17.  [error] reports to the error hook once: whenever the text of
    the notification can be built, the call hands exactly one POST to the
    transport when notifications are enabled, addressed to [ERROR_HOOK]
    and carrying the time and that text, and none when they are
    disabled, in both revisions.  When the text cannot be built, nothing
    is posted. *)
Theorem error_notifies_once h err w res :
  (forall text,
     RevB.error_text h err = Ok text ->
     posts (fst (snd (RevB.error h err (w, res)))) =
     posts w ++
     (if notifications_enabled h
      then [{| post_url := ERROR_HOOK (env h);
               post_body := blocks (date_time h (now w)) text |}]
      else [])) /\
  (forall text body,
     RevA.error_text h err = Ok text ->
     RevA.error_body err = Ok body ->
     posts (fst (snd (RevA.error h err (w, res)))) =
     posts w ++
     (if notifications_enabled h
      then [{| post_url := ERROR_HOOK (env h);
               post_body := blocks (date_time h (now w)) text |}]
      else [])) /\
  (forall e,
     RevB.error_text h err = Throw e ->
     posts (fst (snd (RevB.error h err (w, res)))) = posts w) /\
  (forall e,
     RevA.error_text h err = Throw e ->
     posts (fst (snd (RevA.error h err (w, res)))) = posts w).
Proof.
  split; [|split; [|split]].
  - intros text Htext. rewrite (RevB_error_built h err w res text Htext).
    apply error_notification_posts.
  - intros text body Htext Hbody.
    rewrite (RevA_error_built h err w res text body Htext Hbody).
    apply error_notification_posts.
  - intros e Htext. by rewrite (RevB_error_unbuilt h err w res e Htext).
  - intros e Htext. by rewrite (RevA_error_unbuilt h err w res e Htext).
Qed.

End General.

Section Sample.
#[local] Existing Instance Node.node.

Lemma error_notifies_once_witness :
  posts (fst (snd (RevB.error Samples.host_down Samples.boom
                     (Samples.idle, Samples.plain_res)))) =
  posts Samples.idle ++
  (if notifications_enabled Samples.host_down
   then [{| post_url := ERROR_HOOK (env Samples.host_down);
            post_body :=
              blocks (date_time Samples.host_down (now Samples.idle))
                ("*ERREUR 500 - ENV production* " ++ nl ++ "Error: boom") |}]
   else []).
Proof.
  apply (proj1 (error_notifies_once Samples.host_down Samples.boom
                  Samples.idle Samples.plain_res)).
  reflexivity.
Defined.

End Sample.

(** X18.  A rejected POST is reported: with notifications enabled and
    nothing else in flight, when the transport rejects the POST of
    [custom_notify] with reason [err], the next turn of the event loop
    hands the transport one POST to [ERROR_HOOK] whose document holds the
    time between backquotes and the text [*error while sending
    notification* \n<err>]. *)
Theorem rejection_is_reported h hook content w err :
  strict_eq_str (ALLOW_NOTIF (env h)) "true" = true ->
  in_flight w = [] ->
  transport h (length (posts w)) = Rejected err ->
  posts (run h 1 (snd (custom_notify h hook content w))) =
  posts w ++
  [{| post_url := hook; post_body := content |};
   {| post_url := ERROR_HOOK (env h);
      post_body :=
        blocks (date_time h (S (now w)))
          ("*error while sending notification* " ++ nl ++ err) |}].
Proof.
  intros Hon Hquiet Hrej.
  rewrite (custom_notify_on h hook content w Hon). cbn [snd run].
  rewrite Hquiet. cbn [app].
  set (p := {| post_url := hook; post_body := content |}).
  rewrite (settle_rejected h
             {| now := now w; posts := posts w ++ [p];
                in_flight := [length (posts w)] |}
             (posts w) p err Hon eq_refl eq_refl Hrej).
  simpl. by rewrite <- app_assoc.
Qed.

Lemma rejection_is_reported_witness :
  posts (run Samples.host_flaky 1
           (snd (custom_notify Samples.host_flaky Samples.hook
                   Samples.payload Samples.idle))) =
  posts Samples.idle ++
  [{| post_url := Samples.hook; post_body := Samples.payload |};
   {| post_url := ERROR_HOOK (env Samples.host_flaky);
      post_body :=
        blocks (date_time Samples.host_flaky (S (now Samples.idle)))
          ("*error while sending notification* " ++ nl
           ++ "Error: ECONNREFUSED") |}].
Proof.
  apply (rejection_is_reported Samples.host_flaky Samples.hook
           Samples.payload Samples.idle "Error: ECONNREFUSED");
    reflexivity.
Defined.

End NotifierExtra.
